(** * img_2_base_64: a shallow embedding of the two converter scripts

    [src/img_to_base64_converter.py] (variant A, the destructive flow) and
    [src/scripts/img_2_base_64/img_to_base64.py] (variant B, the aggregating
    flow) are embedded over a small model of the operating system: a store of
    regular files, fault oracles for the calls that can raise, and a console
    log.  Python [str] values are kept as their UTF-8 bytes ([string]), file
    contents as [list byte]. *)

From Stdlib Require Import ZArith NArith QArith Ascii String List Lia.
From Stdlib Require Import Init.Byte.
From stdpp Require Import base option list gmap strings sorting.

Open Scope string_scope.
Open Scope Z_scope.

Definition is_nil {A} (l : list A) : bool :=
  match l with [] => true | _ => false end.

(** ** Standard Base64 (RFC 4648), as computed by [base64.b64encode] *)

Module Base64.

(** The alphabet table of [binascii] ([table_b2a_base64]). *)
Definition table_b2a_base64 : list ascii :=
  list_ascii_of_string
    "ABCDEFGHIJKLMNOPQRSTUVWXYZabcdefghijklmnopqrstuvwxyz0123456789+/".

Definition PAD : ascii := "="%char.

Definition b2a (i : N) : ascii :=
  nth (N.to_nat i) table_b2a_base64 PAD.

Fixpoint index_of (c : ascii) (l : list ascii) (i : N) : option N :=
  match l with
  | [] => None
  | x :: l' => if Ascii.eqb c x then Some i else index_of c l' (N.succ i)
  end.

(** Inverse table lookup ([table_a2b_base64] restricted to the alphabet). *)
Definition a2b (c : ascii) : option N := index_of c table_b2a_base64 0%N.

(** The four sextets of a full 24-bit group, and those of the two short
    tails. *)
Definition sextets3 (a b c : N) : list N :=
  [ (a / 4); ((a mod 4) * 16 + b / 16); ((b mod 16) * 4 + c / 64); (c mod 64) ]%N.

Definition sextets2 (a b : N) : list N :=
  [ (a / 4); ((a mod 4) * 16 + b / 16); ((b mod 16) * 4) ]%N.

Definition sextets1 (a : N) : list N :=
  [ (a / 4); ((a mod 4) * 16) ]%N.

Fixpoint encode_chars (bs : list byte) : list ascii :=
  match bs with
  | [] => []
  | [a] => map b2a (sextets1 (Byte.to_N a)) ++ [PAD; PAD]
  | [a; b] => map b2a (sextets2 (Byte.to_N a) (Byte.to_N b)) ++ [PAD]
  | a :: b :: c :: rest =>
      map b2a (sextets3 (Byte.to_N a) (Byte.to_N b) (Byte.to_N c))
      ++ encode_chars rest
  end.

(** [base64.b64encode(data).decode('utf-8')]: the output is pure ASCII, so
    the decoding step is the identity on the characters. *)
Definition b64encode (bs : list byte) : string :=
  string_of_list_ascii (encode_chars bs).

Definition octet1 (x1 x2 : N) : N := (x1 * 4 + x2 / 16)%N.
Definition octet2 (x2 x3 : N) : N := ((x2 mod 16) * 16 + x3 / 4)%N.
Definition octet3 (x3 x4 : N) : N := ((x3 mod 4) * 64 + x4)%N.

Definition is_pad (c : ascii) : bool := Ascii.eqb c PAD.

(** A strict decoder for padded Base64: groups of four characters, padding
    allowed in the last group only. *)
Fixpoint decode_chars (s : list ascii) : option (list byte) :=
  match s with
  | [] => Some []
  | c1 :: c2 :: c3 :: c4 :: rest =>
      match a2b c1, a2b c2 with
      | Some x1, Some x2 =>
          match a2b c3, a2b c4 with
          | Some x3, Some x4 =>
              b1 ← Byte.of_N (octet1 x1 x2);
              b2 ← Byte.of_N (octet2 x2 x3);
              b3 ← Byte.of_N (octet3 x3 x4);
              tl ← decode_chars rest;
              Some (b1 :: b2 :: b3 :: tl)
          | Some x3, None =>
              if is_pad c4 && is_nil rest then
                b1 ← Byte.of_N (octet1 x1 x2);
                b2 ← Byte.of_N (octet2 x2 x3);
                Some [b1; b2]
              else None
          | None, _ =>
              if is_pad c3 && is_pad c4 && is_nil rest then
                b1 ← Byte.of_N (octet1 x1 x2);
                Some [b1]
              else None
          end
      | _, _ => None
      end
  | _ => None
  end.

Definition b64decode (s : string) : option (list byte) :=
  decode_chars (list_ascii_of_string s).

(** The characters of padded Base64 text: the alphabet and [=]. *)
Definition is_base64_char (c : ascii) : bool :=
  is_pad c || bool_decide (is_Some (a2b c)).

End Base64.

(** ** Python [str] operations used by the scripts

    A [str] is kept as the string of its UTF-8 bytes.  Comparison by code
    point is comparison of the UTF-8 bytes, and the ASCII bytes ['/'],
    ['\\'] and ['.'] never occur inside a multi-byte sequence, so searching
    and replacing them byte-wise is searching and replacing characters. *)

Module PyStr.

Definition len (s : string) : Z := Z.of_nat (String.length s).

Fixpoint rfind_aux (c : ascii) (s : string) (i acc : Z) : Z :=
  match s with
  | EmptyString => acc
  | String x s' => rfind_aux c s' (i + 1) (if Ascii.eqb x c then i else acc)
  end.

(** [s.rfind(c)]: the highest index of [c], or [-1]. *)
Definition rfind (c : ascii) (s : string) : Z := rfind_aux c s 0 (-1).

Fixpoint take (n : nat) (s : string) : string :=
  match n, s with
  | S n', String x s' => String x (take n' s')
  | _, _ => EmptyString
  end.

Fixpoint drop (n : nat) (s : string) : string :=
  match n, s with
  | S n', String _ s' => drop n' s'
  | _, _ => s
  end.

(** [s[:i]] and [s[i:]] for the non-negative indices the scripts use. *)
Definition slice_to (s : string) (i : Z) : string := take (Z.to_nat i) s.
Definition slice_from (s : string) (i : Z) : string := drop (Z.to_nat i) s.

Definition startswith (s pre : string) : bool := String.prefix pre s.

Fixpoint last_char (s : string) : option ascii :=
  match s with
  | EmptyString => None
  | String x EmptyString => Some x
  | String _ s' => last_char s'
  end.

Definition endswith_char (s : string) (c : ascii) : bool :=
  match last_char s with
  | Some x => Ascii.eqb x c
  | None => false
  end.

Fixpoint all_char (c : ascii) (s : string) : bool :=
  match s with
  | EmptyString => true
  | String x s' => Ascii.eqb x c && all_char c s'
  end.

(** [s.rstrip(c)] for a single character [c]. *)
Fixpoint rstrip (c : ascii) (s : string) : string :=
  match s with
  | EmptyString => EmptyString
  | String x s' =>
      if Ascii.eqb x c && all_char c s' then EmptyString
      else String x (rstrip c s')
  end.

(** [s.split(c)]: never empty, [n] separators give [n + 1] pieces. *)
Fixpoint split (c : ascii) (s : string) : list string :=
  match s with
  | EmptyString => [EmptyString]
  | String x s' =>
      if Ascii.eqb x c then EmptyString :: split c s'
      else match split c s' with
           | h :: t => String x h :: t
           | [] => [String x EmptyString]
           end
  end.

(** [sep.join(l)]. *)
Fixpoint join (sep : string) (l : list string) : string :=
  match l with
  | [] => EmptyString
  | [x] => x
  | x :: l' => x ++ sep ++ join sep l'
  end.

Definition lower_char (c : ascii) : ascii :=
  let n := N_of_ascii c in
  if ((65 <=? n) && (n <=? 90))%N then ascii_of_N (n + 32) else c.

(** [s.lower()] on the ASCII letters. The only other characters whose
    lower-case form contains an ASCII letter are U+212A (to [k]) and U+0130
    (to [i] followed by U+0307); no supported extension contains [k], and the
    second keeps a non-ASCII character, so membership of a lowered suffix in
    the extension sets is not affected. *)
Fixpoint lower (s : string) : string :=
  match s with
  | EmptyString => EmptyString
  | String x s' => String (lower_char x) (lower s')
  end.

(** [s.replace(a, b)] for single characters. *)
Fixpoint replace_char (a b : ascii) (s : string) : string :=
  match s with
  | EmptyString => EmptyString
  | String x s' => String (if Ascii.eqb x a then b else x) (replace_char a b s')
  end.

Definition is_empty (s : string) : bool :=
  match s with EmptyString => true | _ => false end.

End PyStr.

(** ** [posixpath] and [pathlib.PurePosixPath] *)

Module PosixPath.
Import PyStr.

Definition SEP : ascii := "/"%char.
Definition DOT : ascii := "."%char.

(** [os.path.basename]. *)
Definition basename (p : string) : string :=
  let i := rfind SEP p + 1 in slice_from p i.

(** [os.path.dirname]. *)
Definition dirname (p : string) : string :=
  let i := rfind SEP p + 1 in
  let head := slice_to p i in
  if negb (is_empty head) && negb (all_char SEP head)
  then rstrip SEP head else head.

(** One step of [os.path.join(a, b)]. *)
Definition join2 (path b : string) : string :=
  if startswith b "/" then b
  else if is_empty path || endswith_char path SEP then path ++ b
  else path ++ "/" ++ b.

Definition join_all (a : string) (ps : list string) : string :=
  fold_left join2 ps a.

(** The loop of [genericpath._splitext] that skips leading dots. *)
Fixpoint splitext_scan (fuel : nat) (p : string) (filenameIndex dotIndex : Z)
  : bool :=
  match fuel with
  | O => false
  | S fuel' =>
      if filenameIndex <? dotIndex then
        if negb (String.eqb (take 1 (slice_from p filenameIndex)) ".")
        then true
        else splitext_scan fuel' p (filenameIndex + 1) dotIndex
      else false
  end.

(** [os.path.splitext]. *)
Definition splitext (p : string) : string * string :=
  let sepIndex := rfind SEP p in
  let dotIndex := rfind DOT p in
  if (sepIndex <? dotIndex)
     && splitext_scan (S (String.length p)) p (sepIndex + 1) dotIndex
  then (slice_to p dotIndex, slice_from p dotIndex)
  else (p, "").

Definition is_dotdot (s : string) : bool := String.eqb s "..".
Definition is_dot_or_empty (s : string) : bool :=
  String.eqb s "" || String.eqb s ".".

(** The component loop of [posixpath.normpath]; [new_comps] is kept
    reversed. *)
Fixpoint normpath_comps (absolute : bool) (comps rev_new : list string)
  : list string :=
  match comps with
  | [] => rev rev_new
  | comp :: rest =>
      if is_dot_or_empty comp then normpath_comps absolute rest rev_new
      else if negb (is_dotdot comp)
              || (negb absolute && is_nil rev_new)
              || (match rev_new with
                  | last :: _ => is_dotdot last
                  | [] => false
                  end)
      then normpath_comps absolute rest (comp :: rev_new)
      else match rev_new with
           | _ :: rev_new' => normpath_comps absolute rest rev_new'
           | [] => normpath_comps absolute rest rev_new
           end
  end.

(** [os.path.normpath]. *)
Definition normpath (path : string) : string :=
  if is_empty path then "." else
  let initial_slashes : nat :=
    if startswith path "/" then
      if startswith path "//" && negb (startswith path "///") then 2%nat
      else 1%nat
    else 0%nat in
  let comps := normpath_comps (negb (Nat.eqb initial_slashes 0))
                 (split SEP path) [] in
  let path' := join "/" comps in
  let path'' :=
    match initial_slashes with
    | O => path'
    | 1%nat => "/" ++ path'
    | _ => "//" ++ path'
    end in
  if is_empty path'' then "." else path''.

(** [os.path.abspath], with the current directory as an argument. *)
Definition abspath (cwd path : string) : string :=
  if startswith path "/" then normpath path
  else normpath (join2 cwd path).

Fixpoint common_prefix_len (l1 l2 : list string) : nat :=
  match l1, l2 with
  | x :: l1', y :: l2' =>
      if String.eqb x y then S (common_prefix_len l1' l2') else O
  | _, _ => O
  end.

Definition nonempty_parts (s : string) : list string :=
  filter (λ x, negb (is_empty x) = true) (split SEP s).

(** [os.path.relpath(path, start)]; [None] stands for the [ValueError]
    raised on an empty [path]. *)
Definition relpath (cwd path start : string) : option string :=
  if is_empty path then None else
  let start_list := nonempty_parts (abspath cwd start) in
  let path_list := nonempty_parts (abspath cwd path) in
  let i := common_prefix_len start_list path_list in
  let rel_list :=
    (repeat ".." (length start_list - i) ++ List.skipn i path_list)%list in
  match rel_list with
  | [] => Some "."
  | x :: rest => Some (join_all x rest)
  end.

(** [PurePosixPath(p).name]: the last component that is neither empty nor
    ["."]; [""] when there is none. *)
Definition path_name (p : string) : string :=
  List.last (filter (λ x, negb (is_dot_or_empty x) = true) (split SEP p)) "".

(** [PurePosixPath(p).suffix]. *)
Definition path_suffix (p : string) : string :=
  let name := path_name p in
  let i := rfind DOT name in
  if (0 <? i) && (i <? len name - 1) then slice_from name i else "".

End PosixPath.

Import PyStr PosixPath.

(** ** The operating system seen by the scripts *)

Inductive exn : Type :=
  | PermissionError
  | FileNotFoundError
  | OSError (errno : Z)
  | ValueError
  | OtherException.

Inductive result (A : Type) : Type :=
  | Ok (a : A)
  | Raise (e : exn).
Arguments Ok {A} a.
Arguments Raise {A} e.

(** What the scripts print, kept structured. *)
Inductive msg : Type :=
  | MsgProcessing (file_path : string) (processed total : Z)
  | MsgSkipInvalid (file_path : string)
  | MsgNoSpace (file_path : string)
  | MsgSuccess (file_path output_path : string)
  | MsgPartial (output_path : string)
  | MsgProgress (progress elapsed estimated : Q)
  | MsgWarnDiskSpace (e : exn)
  | MsgReadDenied (file_path : string)
  | MsgReadError (file_path : string) (e : exn)
  | MsgWriteDenied (output_path : string)
  | MsgDiskFull (output_path : string)
  | MsgWriteError (output_path : string) (e : exn)
  | MsgRemoveDenied (file_path : string)
  | MsgRemoveError (file_path : string) (e : exn)
  | MsgDirMissing (directory : string)
  | MsgOutputDirCreated (output_dir : string)
  | MsgOutputDirError (output_dir : string) (e : exn)
  | MsgScanStart (directory : string) (no_recursive : bool)
  | MsgNoImages
  | MsgFound (n : Z)
  | MsgDone
  | MsgSucceeded (n : Z)
  | MsgFailed (n : Z)
  | MsgPercent (processed total : Z)
  | MsgDartWritten (output_file : string)
  | MsgDartError (e : exn).

(** The file-system calls that change the store, as they were attempted. *)
Inductive syscall : Type :=
  | SysWrite (path : string) (ok : bool)
  | SysRemove (path : string) (ok : bool).

(** The mutable part: regular files by path, the console, the system-call
    trace and the number of clock readings taken.  Files are keyed by the
    path as spelled; a run spells every file one way ([join(root, file)] for a
    source, the derived output path for a text file). *)
Record OS : Type := mkOS {
  files : gmap string (list byte);
  console : list msg;
  trace : list syscall;
  ticks : nat;
}.

(** The environment: what the platform answers.  Faults may depend on the
    current store. *)
Record Env : Type := mkEnv {
  cwd : string;
  (** [imghdr]'s tests on the first 32 bytes of a file *)
  imghdr_tests : list byte → option string;
  (** [open(p, 'rb')] or the read raising *)
  read_fault : gmap string (list byte) → string → option exn;
  (** [makedirs], [open(p, 'w')] or the write raising; [Some n] in the second
      component when the file was created and [n] bytes reached it *)
  write_fault : gmap string (list byte) → string → option (exn * option nat);
  (** [os.remove] raising *)
  remove_fault : gmap string (list byte) → string → option exn;
  (** free bytes reported by [shutil.disk_usage], [None] when it raises *)
  disk_free : gmap string (list byte) → string → option Z;
  (** the successive values of [time.time()] *)
  clock : nat → Q;
  (** [os.walk(directory)] as pairs (root, files) *)
  os_walk : string → list (string * list string);
  (** [os.listdir(directory)] *)
  os_listdir : string → result (list string);
  isdir : string → bool;
  path_exists : string → bool;
  (** [os.makedirs(output_dir, exist_ok=True)] raising *)
  makedirs_fault : string → option exn;
}.

(** *** A state and exception monad for the script bodies *)

Definition M (A : Type) : Type := OS → result A * OS.

Definition ret {A} (a : A) : M A := λ s, (Ok a, s).

Definition bind {A B} (m : M A) (k : A → M B) : M B :=
  λ s, match m s with
       | (Ok a, s') => k a s'
       | (Raise e, s') => (Raise e, s')
       end.

Definition raise {A} (e : exn) : M A := λ s, (Raise e, s).

(** [try: body  except Exception as e: handler e]. *)
Definition try_except {A} (body : M A) (handler : exn → M A) : M A :=
  λ s, match body s with
       | (Ok a, s') => (Ok a, s')
       | (Raise e, s') => handler e s'
       end.

Declare Scope py_scope.
Delimit Scope py_scope with py.
Notation "x <- m ;; k" := (bind m (λ x, k))
  (at level 100, m at next level, right associativity) : py_scope.
Notation "'run' m ;; k" := (bind m (λ _, k))
  (at level 100, m at next level, right associativity) : py_scope.
Open Scope py_scope.

(** A [for] loop threading the local variables [acc]. *)
Fixpoint for_each {A B} (body : B → A → M B) (l : list A) (acc : B) : M B :=
  match l with
  | [] => ret acc
  | x :: l' => acc' <- body acc x ;; for_each body l' acc'
  end.

Definition encode_utf8 (s : string) : list byte :=
  map byte_of_ascii (list_ascii_of_string s).

Section Syscalls.
Variable E : Env.

(** [print] appends a line to the console. The console is taken to accept
    every line: a standard output that refuses a write (a closed pipe, a file
    name its encoding cannot show) is not modelled, so what is proved of the
    value a function returns is about runs whose output is accepted. *)
Definition print (m : msg) : M unit :=
  λ s, (Ok tt, mkOS (files s) (console s ++ [m]) (trace s) (ticks s)).

Definition log_syscall (c : syscall) (s : OS) : OS :=
  mkOS (files s) (console s) (trace s ++ [c]) (ticks s).

Definition set_files (f : gmap string (list byte)) (s : OS) : OS :=
  mkOS f (console s) (trace s) (ticks s).

(** What reading the file at [p] gives in the store [fs]. *)
Definition read_file (fs : gmap string (list byte)) (p : string)
  : result (list byte) :=
  match read_fault E fs p with
  | Some e => Raise e
  | None =>
      match fs !! p with
      | Some data => Ok data
      | None => Raise FileNotFoundError
      end
  end.

(** [with open(p, 'rb') as f: f.read()]. *)
Definition open_read (p : string) : M (list byte) :=
  λ s, (read_file (files s) p, s).

(** [imghdr.what(p)]: opens the file, reads 32 bytes, runs the tests. *)
Definition imghdr_what (p : string) : M (option string) :=
  data <- open_read p ;; ret (imghdr_tests E (firstn 32 data)).

(** [shutil.disk_usage(d).free]. *)
Definition disk_usage_free (d : string) : M Z :=
  λ s, match disk_free E (files s) d with
       | Some free => (Ok free, s)
       | None => (Raise (OSError 2), s)
       end.

(** [os.path.getsize(p)]. *)
Definition getsize (p : string) : M Z :=
  λ s, match files s !! p with
       | Some data => (Ok (Z.of_nat (length data)), s)
       | None => (Raise FileNotFoundError, s)
       end.

(** [os.makedirs(os.path.dirname(p), exist_ok=True)] followed by
    [with open(p, 'w', encoding='utf-8') as f: f.write(text)].
    [os.makedirs('')] raises [FileNotFoundError]. *)
Definition write_text (p text : string) : M unit :=
  λ s, if is_empty (dirname p)
       then (Raise FileNotFoundError, log_syscall (SysWrite p false) s)
       else match write_fault E (files s) p with
       | Some (e, None) => (Raise e, log_syscall (SysWrite p false) s)
       | Some (e, Some n) =>
           (Raise e,
            log_syscall (SysWrite p false)
              (set_files (<[p := firstn n (encode_utf8 text)]> (files s)) s))
       | None =>
           (Ok tt,
            log_syscall (SysWrite p true)
              (set_files (<[p := encode_utf8 text]> (files s)) s))
       end.

(** [os.remove(p)]. *)
Definition os_remove (p : string) : M unit :=
  λ s, match remove_fault E (files s) p with
       | Some e => (Raise e, log_syscall (SysRemove p false) s)
       | None =>
           match files s !! p with
           | Some _ =>
               (Ok tt,
                log_syscall (SysRemove p true) (set_files (delete p (files s)) s))
           | None => (Raise FileNotFoundError, log_syscall (SysRemove p false) s)
           end
       end.

(** [time.time()]. *)
Definition time_time : M Q :=
  λ s, (Ok (clock E (ticks s)),
        mkOS (files s) (console s) (trace s) (S (ticks s))).

(** [os.path.isfile(p)]. *)
Definition isfile (p : string) : M bool :=
  λ s, (Ok (bool_decide (is_Some (files s !! p))), s).

(** [os.makedirs(d, exist_ok=True)] on a directory of its own. *)
Definition os_makedirs (d : string) : M unit :=
  λ s, match makedirs_fault E d with
       | Some e => (Raise e, s)
       | None => (Ok tt, s)
       end.

(** [os.listdir(d)]. *)
Definition listdir (d : string) : M (list string) :=
  λ s, (os_listdir E d, s).

End Syscalls.

(** Truth value of an optional [str] argument: [None] and [''] are false. *)
Definition truthy (o : option string) : bool :=
  match o with
  | Some s => negb (is_empty s)
  | None => false
  end.

(** ** Variant A: [img_to_base64_converter.py], the destructive flow *)

Module Converter.

Definition SUPPORTED_FORMATS : gset string :=
  {[ ".jpg"; ".jpeg"; ".png"; ".gif"; ".bmp"; ".webp"; ".tiff"; ".tif"; ".ico" ]}.

Definition supported_suffix (file_path : string) : bool :=
  bool_decide (lower (path_suffix file_path) ∈ SUPPORTED_FORMATS).

Record args : Type := mkArgs {
  directory : string;
  no_recursive : bool;
  output_dir : option string;
}.

(** How a run of variant A ended. *)
Inductive run_outcome : Type :=
  | DirMissing
  | OutputDirFailed
  | NoImages
  | Processed (success_count failed_count : Z).

(** The number of items that a run counted as failed. *)
Definition failed_items (o : run_outcome) : Z :=
  match o with
  | Processed _ failed_count => failed_count
  | _ => 0
  end.

Section WithEnv.
Variable E : Env.

Definition is_valid_image (file_path : string) : M bool :=
  if negb (supported_suffix file_path) then ret false
  else
    try_except
      (img_type <- imghdr_what E file_path ;; ret (bool_decide (is_Some img_type)))
      (λ _, ret false).

Definition get_free_space (directory : string) : M Z :=
  try_except
    (disk_usage_free E directory)
    (λ e, run print (MsgWarnDiskSpace e) ;; ret 0).

Definition convert_to_base64 (file_path : string) : M (option string) :=
  try_except
    (data <- open_read E file_path ;; ret (Some (Base64.b64encode data)))
    (λ e, match e with
          | PermissionError => run print (MsgReadDenied file_path) ;; ret None
          | _ => run print (MsgReadError file_path e) ;; ret None
          end).

Definition save_base64_to_file (base64_str output_path : string) : M bool :=
  try_except
    (run write_text E output_path base64_str ;; ret true)
    (λ e, match e with
          | PermissionError => run print (MsgWriteDenied output_path) ;; ret false
          | OSError errno =>
              if errno =? 28
              then run print (MsgDiskFull output_path) ;; ret false
              else run print (MsgWriteError output_path e) ;; ret false
          | _ => run print (MsgWriteError output_path e) ;; ret false
          end).

Definition remove_file (file_path : string) : M bool :=
  try_except
    (run os_remove E file_path ;; ret true)
    (λ e, match e with
          | PermissionError => run print (MsgRemoveDenied file_path) ;; ret false
          | _ => run print (MsgRemoveError file_path e) ;; ret false
          end).

Definition find_image_files (directory : string) (recursive : bool)
  : M (list string) :=
  if recursive then
    ret (flat_map
           (λ '(root, files),
              filter (λ file_path, supported_suffix file_path = true)
                     (map (join2 root) files))
           (os_walk E directory))
  else
    names <- listdir E directory ;;
    for_each
      (λ image_files file,
         let file_path := join2 directory file in
         is_file <- isfile file_path ;;
         if is_file && supported_suffix file_path
         then ret (image_files ++ [file_path])%list
         else ret image_files)
      names [].

(** Lines 257-264: the output path of one item; [None] stands for the
    [ValueError] that [os.path.relpath] raises on an empty path. *)
Definition output_path_of (output_dir : option string) (file_path : string)
  : option string :=
  if truthy output_dir then
    match relpath (cwd E) file_path (dirname file_path) with
    | None => None
    | Some rel_path =>
        Some (join2 (default "" output_dir) (fst (splitext rel_path) ++ ".txt"))
    end
  else Some (fst (splitext file_path) ++ ".txt").

Definition of_option {A} (o : option A) (e : exn) : M A :=
  match o with
  | Some a => ret a
  | None => raise e
  end.

(** [avg_time_per_file * remaining_files] of lines 282-284, with exact
    rationals in place of floats. *)
Definition estimated_time (elapsed_time : Q) (processed_files total_files : Z)
  : Q :=
  let avg_time_per_file := (elapsed_time / inject_Z processed_files)%Q in
  let remaining_files := total_files - processed_files in
  (avg_time_per_file * inject_Z remaining_files)%Q.

(** The body of the loop of [process_images]; the pair is
    [(processed_files, failed_files)], and a [continue] is an early
    result. *)
Definition process_item (output_dir : option string) (total_files : Z)
    (start_time : Q) (counters : Z * Z) (file_path : string) : M (Z * Z) :=
  let processed_files := fst counters + 1 in
  let failed_files := snd counters in
  run print (MsgProcessing file_path processed_files total_files) ;;
  valid <- is_valid_image file_path ;;
  if negb valid then
    run print (MsgSkipInvalid file_path) ;;
    ret (processed_files, failed_files + 1)
  else
  free <- get_free_space (dirname file_path) ;;
  size <- getsize file_path ;;
  if free <? size * 2 then
    run print (MsgNoSpace file_path) ;;
    ret (processed_files, failed_files + 1)
  else
  base64_str <- convert_to_base64 file_path ;;
  match base64_str with
  | None => ret (processed_files, failed_files + 1)
  | Some base64_str =>
      output_path <- of_option (output_path_of output_dir file_path) ValueError ;;
      saved <- save_base64_to_file base64_str output_path ;;
      failed_files <-
        (if saved then
           removed <- remove_file file_path ;;
           if removed then
             run print (MsgSuccess file_path output_path) ;; ret failed_files
           else
             run print (MsgPartial output_path) ;; ret (failed_files + 1)
         else ret (failed_files + 1)) ;;
      now <- time_time E ;;
      let elapsed_time := (now - start_time)%Q in
      let progress := (inject_Z processed_files / inject_Z total_files)%Q in
      if 1 <? processed_files then
        run print (MsgProgress progress elapsed_time
                     (estimated_time elapsed_time processed_files total_files)) ;;
        ret (processed_files, failed_files)
      else ret (processed_files, failed_files)
  end.

Definition process_images (image_files : list string)
    (output_dir : option string) : M (Z * Z) :=
  let total_files := Z.of_nat (length image_files) in
  start_time <- time_time E ;;
  counters <- for_each (process_item output_dir total_files start_time)
                image_files (0, 0) ;;
  ret (fst counters - snd counters, snd counters).

Definition main (a : args) : M Z :=
  if negb (isdir E (directory a)) then
    run print (MsgDirMissing (directory a)) ;; ret 1
  else
  created <-
    (if truthy (output_dir a) && negb (path_exists E (default "" (output_dir a)))
     then
       try_except
         (run os_makedirs E (default "" (output_dir a)) ;;
          run print (MsgOutputDirCreated (default "" (output_dir a))) ;;
          ret true)
         (λ e, run print (MsgOutputDirError (default "" (output_dir a)) e) ;;
               ret false)
     else ret true) ;;
  if negb created then ret 1 else
  run print (MsgScanStart (directory a) (no_recursive a)) ;;
  image_files <- find_image_files (directory a) (negb (no_recursive a)) ;;
  if is_nil image_files then
    run print MsgNoImages ;; ret 0
  else
  run print (MsgFound (Z.of_nat (length image_files))) ;;
  counts <- process_images image_files (output_dir a) ;;
  let success_count := fst counts in
  let failed_count := snd counts in
  run print MsgDone ;;
  run print (MsgSucceeded success_count) ;;
  run (if 0 <? failed_count then print (MsgFailed failed_count) else ret tt) ;;
  ret (if failed_count =? 0 then 0 else 1).

(** *** Pure readings of the store, used to state the properties *)

(** The value [is_valid_image] returns in the store [fs]. *)
Definition valid_image (fs : gmap string (list byte)) (p : string) : bool :=
  supported_suffix p
  && match read_file E fs p with
     | Ok data => bool_decide (is_Some (imghdr_tests E (firstn 32 data)))
     | Raise _ => false
     end.

(** The value [get_free_space] returns in the store [fs]. *)
Definition free_space_value (fs : gmap string (list byte)) (d : string) : Z :=
  default 0 (disk_free E fs d).

(** The value [convert_to_base64] returns in the store [fs]. *)
Definition encoded (fs : gmap string (list byte)) (p : string)
  : option string :=
  match read_file E fs p with
  | Ok data => Some (Base64.b64encode data)
  | Raise _ => None
  end.

(** [sys.exit(main())]: the status of the process; an exception that
    reaches the top level ends the interpreter with status 1. *)
Definition exit_status (r : result Z) : Z :=
  match r with
  | Ok code => code
  | Raise _ => 1
  end.

(** [main] once more, returning next to the exit code how the run ended;
    [main_traced_code] below shows that the exit code and the final state
    are those of [main]. *)
Definition main_traced (a : args) : M (Z * run_outcome) :=
  if negb (isdir E (directory a)) then
    run print (MsgDirMissing (directory a)) ;; ret (1, DirMissing)
  else
  created <-
    (if truthy (output_dir a) && negb (path_exists E (default "" (output_dir a)))
     then
       try_except
         (run os_makedirs E (default "" (output_dir a)) ;;
          run print (MsgOutputDirCreated (default "" (output_dir a))) ;;
          ret true)
         (λ e, run print (MsgOutputDirError (default "" (output_dir a)) e) ;;
               ret false)
     else ret true) ;;
  if negb created then ret (1, OutputDirFailed) else
  run print (MsgScanStart (directory a) (no_recursive a)) ;;
  image_files <- find_image_files (directory a) (negb (no_recursive a)) ;;
  if is_nil image_files then
    run print MsgNoImages ;; ret (0, NoImages)
  else
  run print (MsgFound (Z.of_nat (length image_files))) ;;
  counts <- process_images image_files (output_dir a) ;;
  let success_count := fst counts in
  let failed_count := snd counts in
  run print MsgDone ;;
  run print (MsgSucceeded success_count) ;;
  run (if 0 <? failed_count then print (MsgFailed failed_count) else ret tt) ;;
  ret (if failed_count =? 0 then 0 else 1, Processed success_count failed_count).

(** Whether the output directory is there when the scan starts: it was not
    asked for, it existed, or it could be created. *)
Definition output_dir_ready (a : args) : bool :=
  negb (truthy (output_dir a) && negb (path_exists E (default "" (output_dir a))))
  || match makedirs_fault E (default "" (output_dir a)) with
     | None => true
     | Some _ => false
     end.

End WithEnv.
End Converter.

(** ** Variant B: [scripts/img_2_base_64/img_to_base64.py], the aggregating
    flow *)

Module Aggregator.

Definition SUPPORTED_FORMATS : gset string :=
  {[ ".jpg"; ".jpeg"; ".png"; ".gif"; ".bmp"; ".webp" ]}.

Definition is_image_file (file_path : string) : bool :=
  bool_decide (lower (path_suffix file_path) ∈ SUPPORTED_FORMATS).

Definition NL : string := String (ascii_of_nat 10) EmptyString.
Definition BACKSLASH : ascii := ascii_of_nat 92.

Definition HEADER : string :=
  "// 此文件由 Python 脚本自动生成，请勿手动修改" ++ NL ++ NL
  ++ "const Map<String, String> base64Images = {" ++ NL.

Definition FOOTER : string := "};" ++ NL.

(** [sorted(base64_dict.keys())]: ascending by code point. *)
Definition sorted_keys (base64_dict : gmap string string) : list string :=
  merge_sort String.le (elements (dom base64_dict)).

(** The (key, value) pairs in the order in which [generate_dart_file]
    writes them. *)
Definition dart_entries (base64_dict : gmap string string)
  : list (string * string) :=
  map (λ key, (key, default "" (base64_dict !! key))) (sorted_keys base64_dict).

Definition entry_line (kv : string * string) : string :=
  "  '" ++ fst kv ++ "': '''" ++ snd kv ++ "'''," ++ NL.

Definition dart_text (base64_dict : gmap string string) : string :=
  HEADER ++ String.concat "" (map entry_line (dart_entries base64_dict))
  ++ FOOTER.

Record args : Type := mkArgs {
  directory : string;
  output : string;
}.

Section WithEnv.
Variable E : Env.

Definition convert_to_base64 (file_path : string) : M string :=
  try_except
    (data <- open_read E file_path ;; ret (Base64.b64encode data))
    (λ e, run print (MsgReadError file_path e) ;; ret "").

(** The image files that [os.walk] reports, as (root, file) pairs in
    traversal order; the extension test is on the file name. *)
Definition discovered (directory : string) : list (string * string) :=
  flat_map
    (λ '(root, files),
       map (λ file, (root, file))
           (filter (λ file, is_image_file file = true) files))
    (os_walk E directory).

(** The key under which a discovered file is stored; [None] stands for the
    [ValueError] of [os.path.relpath]. *)
Definition relative_key (directory : string) (rf : string * string)
  : option string :=
  replace_char BACKSLASH SEP
    <$> relpath (cwd E) (join2 (fst rf) (snd rf)) directory.

(** The body of the inner loop of [scan_directory] for one image file; the
    pair is [(base64_dict, processed_files)]. *)
Definition scan_file (directory : string) (total_files : Z)
    (acc : gmap string string * Z) (rf : string * string)
  : M (gmap string string * Z) :=
  let base64_dict := fst acc in
  let processed_files := snd acc in
  let file_path := join2 (fst rf) (snd rf) in
  match relative_key directory rf with
  | None => raise ValueError
  | Some relative_path =>
      run print (MsgProcessing relative_path (processed_files + 1) total_files) ;;
      base64_str <- convert_to_base64 file_path ;;
      let base64_dict :=
        if negb (is_empty base64_str)
        then <[relative_path := base64_str]> base64_dict
        else base64_dict in
      let processed_files := processed_files + 1 in
      run print (MsgPercent processed_files total_files) ;;
      ret (base64_dict, processed_files)
  end.

(** [scan_directory], returning the counter next to the dictionary. *)
Definition scan_directory_counted (directory : string)
  : M (gmap string string * Z) :=
  let total_files := Z.of_nat (length (discovered directory)) in
  acc <- for_each (scan_file directory total_files) (discovered directory)
           (∅, 0) ;;
  run print MsgDone ;;
  ret acc.

Definition scan_directory (directory : string) : M (gmap string string) :=
  acc <- scan_directory_counted directory ;; ret (fst acc).

Definition generate_dart_file (base64_dict : gmap string string)
    (output_file : string) : M unit :=
  try_except
    (run write_text E output_file (dart_text base64_dict) ;;
     print (MsgDartWritten output_file))
    (λ e, print (MsgDartError e)).

Definition main (a : args) : M unit :=
  if negb (isdir E (directory a)) then print (MsgDirMissing (directory a))
  else
  run print (MsgScanStart (directory a) false) ;;
  base64_dict <- scan_directory (directory a) ;;
  if bool_decide (base64_dict = ∅) then print MsgNoImages
  else
  let output_path := abspath (cwd E) (output a) in
  generate_dart_file base64_dict output_path.

End WithEnv.
End Aggregator.

(** ** The notions in which the properties are stated *)

Module ConverterSpec.
Import Converter.

(** What one item can do to the store and to the system-call trace, with
    the amount it adds to [failed_files]. *)
Inductive item_effect (E : Env) (out : option string) (p : string)
    (s s' : OS) : Z → Prop :=
  | effect_skipped :
      files s' = files s → trace s' = trace s →
      item_effect E out p s s' 1
  | effect_write_failed o :
      output_path_of E out p = Some o →
      (files s' = files s ∨ ∃ d, files s' = <[o := d]> (files s)) →
      trace s' = (trace s ++ [SysWrite o false])%list →
      item_effect E out p s s' 1
  | effect_kept o d :
      output_path_of E out p = Some o →
      files s' = <[o := d]> (files s) →
      trace s' = (trace s ++ [SysWrite o true; SysRemove p false])%list →
      item_effect E out p s s' 1
  | effect_deleted o d :
      output_path_of E out p = Some o →
      supported_suffix p = true →
      files s' = delete p (<[o := d]> (files s)) →
      trace s' = (trace s ++ [SysWrite o true; SysRemove p true])%list →
      item_effect E out p s s' 0.

(** Two states with the same store and the same system-call trace. *)
Definition same (s s' : OS) : Prop :=
  files s' = files s ∧ trace s' = trace s.

Definition is_progress (m : msg) : bool :=
  match m with
  | MsgProgress _ _ _ => true
  | _ => false
  end.

(** The console only grew, and by no progress line. *)
Definition no_estimate (s s' : OS) : Prop :=
  ∃ new, console s' = (console s ++ new)%list
         ∧ forallb (λ m, negb (is_progress m)) new = true.

(** Computations every run of which relates the state before to the state
    after by [R]. *)
Definition keeps (R : OS → OS → Prop) {A} (m : M A) : Prop :=
  ∀ s, R s (snd (m s)).

(** Every attempt to remove a file comes right after the successful write
    of that file's output path. *)
Definition write_then_delete (outp : string → option string)
    (t : list syscall) : Prop :=
  ∀ i p ok, t !! i = Some (SysRemove p ok) →
    ∃ j o, i = S j ∧ outp p = Some o ∧ t !! j = Some (SysWrite o true).

(** Every file of [fs0] that is gone from [fs] has its text file in [fs]. *)
Definition deleted_have_text (outp : string → option string)
    (fs0 fs : gmap string (list byte)) : Prop :=
  ∀ q, q ∈ dom fs0 → q ∉ dom fs → ∃ o, outp q = Some o ∧ o ∈ dom fs.

(** Forgetting the outcome of [main_traced]. *)
Definition forget_outcome (r : result (Z * run_outcome) * OS) : result Z * OS :=
  (match fst r with
   | Ok x => Ok (fst x)
   | Raise e => Raise e
   end, snd r).

(** The exit code as the specification words it: where the directory exists,
    the exit code is 0 exactly when no item failed. *)
Definition exit_zero_iff_no_failure (E : Env) (a : args) (s : OS) : Prop :=
  isdir E (directory a) = true →
  ∀ code o s', main_traced E a s = (Ok (code, o), s') →
    (code = 0 ↔ failed_items o = 0).

End ConverterSpec.

Module AggregatorSpec.
Import Aggregator.

(** The text stored for a file, if any is. *)
Definition stored_text (E : Env) (fs : gmap string (list byte))
    (p : string) : option string :=
  match read_file E fs p with
  | Ok [] => None
  | Ok data => Some (Base64.b64encode data)
  | Raise _ => None
  end.

(** The keys as the specification words them: the keys written are the
    relative paths of all the discovered images. *)
Definition keys_are_all_discovered (E : Env) (directory : string) (s : OS)
  : Prop :=
  ∀ d s', scan_directory E directory s = (Ok d, s') →
    ∀ k, k ∈ map fst (dart_entries d) ↔
         ∃ rf, rf ∈ discovered E directory
               ∧ relative_key E directory rf = Some k.

End AggregatorSpec.

(** ** Further notions: counting removals, reading text back *)

Module MoreSpec.

Definition is_removal (c : syscall) : bool :=
  match c with
  | SysRemove _ true => true
  | _ => false
  end.

(** The number of files that the system calls [t] removed. *)
Definition removed_count (t : list syscall) : Z :=
  Z.of_nat (length (filter (λ c, is_removal c = true) t)).

Definition is_write (c : syscall) : bool :=
  match c with
  | SysWrite _ _ => true
  | SysRemove _ _ => false
  end.

(** Reading back a text file that holds ASCII only: the inverse of
    [encode_utf8] on such text. *)
Definition decode_ascii (data : list byte) : string :=
  string_of_list_ascii (map ascii_of_byte data).

(** The dictionary of a scan, read off the store: the discovered files
    in order, each stored under its key when it has text. *)
Definition scan_dict (E : Env) (directory : string)
    (fs : gmap string (list byte)) : gmap string string :=
  fold_left
    (λ d rf,
       match Aggregator.relative_key E directory rf,
             AggregatorSpec.stored_text E fs (join2 (fst rf) (snd rf)) with
       | Some key, Some text => <[key := text]> d
       | _, _ => d
       end)
    (Aggregator.discovered E directory) ∅.

End MoreSpec.

(** ** The text of a removed original *)

Module ContentSpec.
Import Converter MoreSpec.






End ContentSpec.

(** ** A small world to run the scripts in *)

Module Examples.

(** The eight bytes every PNG file starts with. *)
Definition png_magic : list byte := [x89; x50; x4e; x47; x0d; x0a; x1a; x0a].

(** A stand-in for [imghdr]'s tests that knows PNG only. *)
Definition sniff_png (h : list byte) : option string :=
  if bool_decide (map Byte.to_N (firstn 8 h) = map Byte.to_N png_magic)
  then Some "png" else None.

(** A tree [d] with two files and a subdirectory [d/sub] with one. *)
Definition walk_d (directory : string) : list (string * list string) :=
  [(directory, ["a.png"; "b.png"; "notes.md"]);
   (join2 directory "sub", ["a.png"])].

Definition env_with
    (rm : gmap string (list byte) → string → option exn)
    (free : gmap string (list byte) → string → option Z)
    (mkd : string → option exn) : Env :=
  mkEnv "/home/u" sniff_png (λ _ _, None) (λ _ _, None) rm free
        (λ n, inject_Z (Z.of_nat n)) walk_d
        (λ _, Ok ["a.png"; "b.png"; "notes.md"; "sub"])
        (λ d, String.eqb d "d") (λ _, false) mkd.

(** Nothing fails and the disk is large. *)
Definition env_ok : Env :=
  env_with (λ _ _, None) (λ _ _, Some 1000000) (λ _, None).

(** Three free bytes only. *)
Definition env_full : Env :=
  env_with (λ _ _, None) (λ _ _, Some 3) (λ _, None).

(** Files cannot be removed. *)
Definition env_readonly : Env :=
  env_with (λ _ _, Some PermissionError) (λ _ _, Some 1000000) (λ _, None).

(** The free space cannot be read. *)
Definition env_no_usage : Env :=
  env_with (λ _ _, None) (λ _ _, None) (λ _, None).

(** Directories cannot be created. *)
Definition env_no_mkdir : Env :=
  env_with (λ _ _, None) (λ _ _, Some 1000000) (λ _, Some PermissionError).

(** [d/a.png] and [d/sub/a.png] are PNG files, [d/b.png] is text. *)
Definition fs_images : gmap string (list byte) :=
  <["d/a.png" := (png_magic ++ [x00; x01])%list]>
  (<["d/b.png" := [x68; x69]]>
  (<["d/sub/a.png" := (png_magic ++ [xff])%list]> ∅)).

(** As [fs_images], with [d/a.png] of length zero. *)
Definition fs_empty_file : gmap string (list byte) :=
  <["d/a.png" := []]> fs_images.

Definition os_images : OS := mkOS fs_images [] [] 0.
Definition os_empty_file : OS := mkOS fs_empty_file [] [] 0.

(** The dictionary that a scan of [d] returns. *)
Definition scan_result (E : Env) (s : OS) : gmap string string :=
  match fst (Aggregator.scan_directory E "d" s) with
  | Ok d => d
  | Raise _ => ∅
  end.





End Examples.

(** * The Base64 round trip *)

Module Base64Facts.
Import Base64.

Lemma a2b_b2a (i : N) : (i < 64)%N → a2b (b2a i) = Some i.
Proof.
  intros Hi. rewrite <- (N2Nat.id i) at 2.
  unfold b2a. assert (Hk : (N.to_nat i < 64)%nat) by lia.
  revert Hk. generalize (N.to_nat i). intros k Hk.
  do 64 (destruct k as [|k]; [reflexivity|]). lia.
Qed.

Lemma a2b_PAD : a2b PAD = None.
Proof. reflexivity. Qed.

Lemma to_N_lt (b : byte) : (Byte.to_N b < 256)%N.
Proof. pose proof (Byte.to_N_bounded b). lia. Qed.

Ltac nlia := zify; Z.to_euclidean_division_equations; lia.

Lemma sextets_lt (x y : N) :
  (x < 256)%N → (y < 256)%N →
  (x / 4 < 64 ∧ (x mod 4) * 16 + y / 16 < 64 ∧ (x mod 4) * 16 < 64
   ∧ (x mod 16) * 4 + y / 64 < 64 ∧ (x mod 16) * 4 < 64 ∧ x mod 64 < 64)%N.
Proof. intros Hx Hy. repeat split; nlia. Qed.

Lemma octet1_sextets (x y : N) :
  (x < 256)%N → (y < 256)%N →
  octet1 (x / 4) ((x mod 4) * 16 + y / 16) = x.
Proof. intros Hx Hy. unfold octet1. nlia. Qed.

Lemma octet2_sextets (x y z : N) :
  (x < 256)%N → (y < 256)%N → (z < 256)%N →
  octet2 ((x mod 4) * 16 + y / 16) ((y mod 16) * 4 + z / 64) = y.
Proof. intros Hx Hy Hz. unfold octet2. nlia. Qed.

Lemma octet3_sextets (y z : N) :
  (y < 256)%N → (z < 256)%N →
  octet3 ((y mod 16) * 4 + z / 64) (z mod 64) = z.
Proof. intros Hy Hz. unfold octet3. nlia. Qed.

Lemma zero_lt_256 : (0 < 256)%N.
Proof. reflexivity. Qed.

Lemma is_pad_PAD : is_pad PAD = true.
Proof. reflexivity. Qed.

Create HintDb b64.
#[local] Hint Resolve to_N_lt zero_lt_256 : b64.

Lemma decode_group3 (a b c : byte) (rest : list ascii) :
  decode_chars
    (map b2a (sextets3 (Byte.to_N a) (Byte.to_N b) (Byte.to_N c)) ++ rest)
  = (tl ← decode_chars rest; Some (a :: b :: c :: tl)).
Proof.
  pose proof (to_N_lt a) as Ha. pose proof (to_N_lt b) as Hb.
  pose proof (to_N_lt c) as Hc.
  destruct (sextets_lt _ _ Ha Hb) as (H1 & H2 & _).
  destruct (sextets_lt _ _ Hb Hc) as (_ & _ & _ & H3 & _).
  destruct (sextets_lt _ _ Hc Hc) as (_ & _ & _ & _ & _ & H4).
  cbn [sextets3 map app decode_chars].
  rewrite (a2b_b2a _ H1), (a2b_b2a _ H2), (a2b_b2a _ H3), (a2b_b2a _ H4).
  rewrite octet1_sextets, octet2_sextets, octet3_sextets by assumption.
  rewrite !Byte.of_to_N. reflexivity.
Qed.

Lemma decode_tail2 (a b : byte) :
  decode_chars (map b2a (sextets2 (Byte.to_N a) (Byte.to_N b)) ++ [PAD])
  = Some [a; b].
Proof.
  pose proof (to_N_lt a) as Ha. pose proof (to_N_lt b) as Hb.
  destruct (sextets_lt _ _ Ha Hb) as (H1 & H2 & _).
  destruct (sextets_lt _ _ Hb Hb) as (_ & _ & _ & _ & H3 & _).
  cbn [sextets2 map app decode_chars].
  rewrite (a2b_b2a _ H1), (a2b_b2a _ H2), (a2b_b2a _ H3), a2b_PAD.
  rewrite !is_pad_PAD. cbn [is_nil andb].
  rewrite octet1_sextets by assumption.
  replace ((Byte.to_N b mod 16) * 4)%N
    with ((Byte.to_N b mod 16) * 4 + 0 / 64)%N by (rewrite N.add_0_r; reflexivity).
  rewrite octet2_sextets by auto with b64.
  rewrite !Byte.of_to_N. reflexivity.
Qed.

Lemma decode_tail1 (a : byte) :
  decode_chars (map b2a (sextets1 (Byte.to_N a)) ++ [PAD; PAD]) = Some [a].
Proof.
  pose proof (to_N_lt a) as Ha.
  destruct (sextets_lt _ _ Ha Ha) as (H1 & _ & H2 & _).
  cbn [sextets1 map app decode_chars].
  rewrite (a2b_b2a _ H1), (a2b_b2a _ H2), a2b_PAD.
  rewrite !is_pad_PAD. cbn [is_nil andb].
  replace ((Byte.to_N a mod 4) * 16)%N
    with ((Byte.to_N a mod 4) * 16 + 0 / 16)%N by (rewrite N.add_0_r; reflexivity).
  rewrite octet1_sextets by auto with b64.
  rewrite Byte.of_to_N. reflexivity.
Qed.

(** Induction three bytes at a time, the way the encoder consumes its
    input. *)
Lemma list_ind3 {A} (P : list A → Prop) :
  P [] → (∀ a, P [a]) → (∀ a b, P [a; b]) →
  (∀ a b c l, P l → P (a :: b :: c :: l)) →
  ∀ l, P l.
Proof.
  intros H0 H1 H2 H3 l.
  assert (H : P l ∧ (∀ a, P (a :: l)) ∧ (∀ a b, P (a :: b :: l))).
  { induction l as [|x l (IH0 & IH1 & IH2)]; [by auto|].
    split; [apply IH1|]. split; [intros a; apply IH2|].
    intros a b. by apply H3. }
  apply H.
Qed.

Lemma decode_encode_chars (bs : list byte) :
  decode_chars (encode_chars bs) = Some bs.
Proof.
  induction bs as [|a|a b|a b c l IH] using list_ind3.
  - reflexivity.
  - apply decode_tail1.
  - apply decode_tail2.
  - change (encode_chars (a :: b :: c :: l))
      with (map b2a (sextets3 (Byte.to_N a) (Byte.to_N b) (Byte.to_N c))
            ++ encode_chars l)%list.
    rewrite decode_group3, IH. reflexivity.
Qed.

Lemma b64decode_b64encode (bs : list byte) :
  b64decode (b64encode bs) = Some bs.
Proof.
  unfold b64decode, b64encode.
  rewrite list_ascii_of_string_of_list_ascii. apply decode_encode_chars.
Qed.

(** Padded output: four characters for every started group of three
    bytes. *)
Lemma length_encode_chars (bs : list byte) :
  Z.of_nat (length (encode_chars bs)) = 4 * ((Z.of_nat (length bs) + 2) / 3).
Proof.
  induction bs as [|a|a b|a b c l IH] using list_ind3; try reflexivity.
  change (encode_chars (a :: b :: c :: l))
    with (map b2a (sextets3 (Byte.to_N a) (Byte.to_N b) (Byte.to_N c))
          ++ encode_chars l)%list.
  rewrite length_app. cbn [sextets3 map length].
  rewrite !Nat2Z.inj_add, IH.
  rewrite !Nat2Z.inj_succ. nlia.
Qed.

Lemma is_base64_char_b2a (i : N) : (i < 64)%N → is_base64_char (b2a i) = true.
Proof.
  intros Hi. unfold is_base64_char. rewrite (a2b_b2a i Hi).
  by rewrite orb_true_r.
Qed.

Lemma encode_chars_alphabet (bs : list byte) :
  forallb is_base64_char (encode_chars bs) = true.
Proof.
  induction bs as [|a|a b|a b c l IH] using list_ind3.
  - reflexivity.
  - pose proof (to_N_lt a) as Ha.
    destruct (sextets_lt _ _ Ha Ha) as (H1 & _ & H2 & _).
    cbn [encode_chars sextets1 map app forallb].
    by rewrite !is_base64_char_b2a.
  - pose proof (to_N_lt a) as Ha. pose proof (to_N_lt b) as Hb.
    destruct (sextets_lt _ _ Ha Hb) as (H1 & H2 & _).
    destruct (sextets_lt _ _ Hb Hb) as (_ & _ & _ & _ & H3 & _).
    cbn [encode_chars sextets2 map app forallb].
    by rewrite !is_base64_char_b2a.
  - pose proof (to_N_lt a) as Ha. pose proof (to_N_lt b) as Hb.
    pose proof (to_N_lt c) as Hc.
    destruct (sextets_lt _ _ Ha Hb) as (H1 & H2 & _).
    destruct (sextets_lt _ _ Hb Hc) as (_ & _ & _ & H3 & _).
    destruct (sextets_lt _ _ Hc Hc) as (_ & _ & _ & _ & _ & H4).
    change (encode_chars (a :: b :: c :: l))
      with (map b2a (sextets3 (Byte.to_N a) (Byte.to_N b) (Byte.to_N c))
            ++ encode_chars l)%list.
    rewrite forallb_app, IH. cbn [sextets3 map forallb].
    by rewrite !is_base64_char_b2a.
Qed.

Lemma b64encode_nil : b64encode [] = "".
Proof. reflexivity. Qed.

Lemma b64encode_empty_iff (bs : list byte) : b64encode bs = "" ↔ bs = [].
Proof.
  split; [|intros ->; reflexivity].
  intros H. pose proof (b64decode_b64encode bs) as Hd.
  rewrite H in Hd. cbn in Hd. congruence.
Qed.

End Base64Facts.

(** * Facts about the string and path functions *)

Module PathFacts.

Lemma append_cons (x : ascii) (a b : string) :
  String x a ++ b = String x (a ++ b).
Proof. reflexivity. Qed.

Lemma append_nil_l (b : string) : EmptyString ++ b = b.
Proof. reflexivity. Qed.

Lemma rfind_aux_app (c : ascii) (a b : string) (i acc : Z) :
  rfind_aux c (a ++ b) i acc
  = rfind_aux c b (i + len a) (rfind_aux c a i acc).
Proof.
  revert i acc. induction a as [|x a IH]; intros i acc.
  - rewrite append_nil_l. cbn. f_equal. unfold len. cbn. lia.
  - rewrite append_cons. cbn [rfind_aux]. rewrite IH. f_equal.
    unfold len. cbn [String.length]. lia.
Qed.

Lemma rfind_dot_txt (name : string) : rfind DOT (name ++ ".txt") = len name.
Proof. unfold rfind. rewrite rfind_aux_app. cbn. lia. Qed.

Lemma len_app (a b : string) : len (a ++ b) = len a + len b.
Proof.
  unfold len. induction a as [|x a IH]; [reflexivity|].
  rewrite append_cons. cbn [String.length]. lia.
Qed.

Lemma drop_length_app (a b : string) : drop (String.length a) (a ++ b) = b.
Proof. induction a as [|x a IH]; [by destruct b|]. exact IH. Qed.

(** Appending a piece without separator extends the last component. *)
Lemma split_app_txt (s : string) :
  ∃ init lastp, split SEP s = (init ++ [lastp])%list
                ∧ split SEP (s ++ ".txt")
                  = (init ++ [(lastp ++ ".txt")%string])%list.
Proof.
  induction s as [|x s (init & lastp & H1 & H2)].
  - exists [], "". split; [reflexivity|]. reflexivity.
  - rewrite append_cons. cbn [split]. destruct (Ascii.eqb x SEP).
    + exists ("" :: init), lastp. rewrite H1, H2. done.
    + rewrite H1, H2. destruct init as [|h init].
      * exists [], (String x lastp). done.
      * exists (String x h :: init), lastp. done.
Qed.

Lemma path_name_txt (s : string) :
  ∃ lastp, path_name (s ++ ".txt") = lastp ++ ".txt".
Proof.
  destruct (split_app_txt s) as (init & lastp & _ & H).
  exists lastp. unfold path_name. rewrite H, filter_app.
  assert (Hk : is_dot_or_empty (lastp ++ ".txt") = false).
  { destruct lastp as [|a lastp]; [reflexivity|].
    unfold is_dot_or_empty. rewrite append_cons. cbn [String.eqb orb].
    destruct (Ascii.eqb a "."); [|reflexivity].
    destruct lastp; reflexivity. }
  rewrite (filter_cons_True _ (lastp ++ ".txt")) by (by rewrite Hk).
  rewrite filter_nil. apply List.last_last.
Qed.

Lemma path_suffix_txt (s : string) :
  path_suffix (s ++ ".txt") = "" ∨ path_suffix (s ++ ".txt") = ".txt".
Proof.
  destruct (path_name_txt s) as (lastp & Hn).
  unfold path_suffix. rewrite Hn, rfind_dot_txt.
  destruct ((0 <? len lastp) && (len lastp <? len (lastp ++ ".txt") - 1));
    [right|by left].
  unfold slice_from, len. rewrite Nat2Z.id. apply drop_length_app.
Qed.

End PathFacts.

(** * Variant A: the loop of [process_images] *)

Module ConverterFacts.
Import Converter ConverterSpec PathFacts.

Lemma txt_not_supported (s : string) :
  supported_suffix (s ++ ".txt") = false.
Proof.
  unfold supported_suffix.
  destruct (path_suffix_txt s) as [-> | ->]; by vm_compute.
Qed.

Lemma supported_not_txt (p s : string) :
  supported_suffix p = true → p ≠ s ++ ".txt".
Proof. intros Hp ->. by rewrite txt_not_supported in Hp. Qed.

Lemma append_assoc (a b c : string) : (a ++ b) ++ c = a ++ (b ++ c).
Proof.
  induction a as [|x a IH]; [reflexivity|].
  rewrite !append_cons. by rewrite IH.
Qed.

Lemma output_path_txt (E : Env) (out : option string) (p o : string) :
  output_path_of E out p = Some o → ∃ stem, o = stem ++ ".txt".
Proof.
  unfold output_path_of. destruct (truthy out).
  - destruct (relpath (cwd E) p (dirname p)) as [rel|]; [|done].
    intros [= <-]. unfold join2.
    destruct (startswith _ _); [by eauto|].
    destruct (_ || _).
    + eexists. by rewrite <- append_assoc.
    + eexists. by rewrite <- !append_assoc.
  - intros [= <-]. by eauto.
Qed.

Section Keeps.
Context (R : OS → OS → Prop) `{!Reflexive R, !Transitive R}.

Lemma keeps_ret {A} (a : A) : keeps R (ret a).
Proof. intros s. reflexivity. Qed.

Lemma keeps_raise {A} (e : exn) : keeps R (@raise A e).
Proof. intros s. reflexivity. Qed.

Lemma keeps_bind {A B} (m : M A) (k : A → M B) :
  keeps R m → (∀ a, keeps R (k a)) → keeps R (bind m k).
Proof.
  intros Hm Hk s. unfold bind. specialize (Hm s).
  destruct (m s) as [[a|e] s1]; cbn [snd] in *; [|done].
  etrans; [exact Hm|apply Hk].
Qed.

Lemma keeps_try_except {A} (body : M A) (handler : exn → M A) :
  keeps R body → (∀ e, keeps R (handler e)) → keeps R (try_except body handler).
Proof.
  intros Hm Hk s. unfold try_except. specialize (Hm s).
  destruct (body s) as [[a|e] s1]; cbn [snd] in *; [done|].
  etrans; [exact Hm|apply Hk].
Qed.

Lemma keeps_if {A} (b : bool) (m1 m2 : M A) :
  keeps R m1 → keeps R m2 → keeps R (if b then m1 else m2).
Proof. by destruct b. Qed.

Lemma keeps_of_option {A} (o : option A) e : keeps R (of_option o e).
Proof. destruct o; [apply keeps_ret|apply keeps_raise]. Qed.

Lemma keeps_for_each {A B} (body : B → A → M B) (l : list A) (acc : B) :
  (∀ acc x, keeps R (body acc x)) → keeps R (for_each body l acc).
Proof.
  intros Hb. revert acc. induction l as [|x l IH]; intros acc.
  - apply keeps_ret.
  - cbn [for_each]. apply keeps_bind; [apply Hb|]. intros acc'. apply IH.
Qed.

End Keeps.

#[local] Instance same_refl : Reflexive same.
Proof. by split. Qed.

#[local] Instance same_trans : Transitive same.
Proof. intros s1 s2 s3 [H1 H2] [H3 H4]. split; congruence. Qed.

#[local] Instance no_estimate_refl : Reflexive no_estimate.
Proof. intros s. exists []. by rewrite app_nil_r. Qed.

#[local] Instance no_estimate_trans : Transitive no_estimate.
Proof.
  intros s1 s2 s3 (n1 & H1 & F1) (n2 & H2 & F2). exists (n1 ++ n2)%list.
  split; [by rewrite H2, H1, <- app_assoc|].
  by rewrite forallb_app, F1, F2.
Qed.

(** The primitives that neither write nor remove. *)
Lemma quiet_print (m : msg) : keeps same (print m).
Proof. intros s. by split. Qed.

Lemma quiet_open_read E p : keeps same (open_read E p).
Proof. intros s. reflexivity. Qed.

Lemma quiet_disk_usage_free E d : keeps same (disk_usage_free E d).
Proof.
  intros s. unfold disk_usage_free.
  destruct (disk_free E (files s) d); reflexivity.
Qed.

Lemma quiet_getsize p : keeps same (getsize p).
Proof. intros s. unfold getsize. destruct (files s !! p); reflexivity. Qed.

Lemma quiet_time_time E : keeps same (time_time E).
Proof. intros s. by split. Qed.

Lemma quiet_isfile p : keeps same (isfile p).
Proof. intros s. by split. Qed.

Lemma quiet_listdir E d : keeps same (listdir E d).
Proof. intros s. by split. Qed.

Lemma quiet_os_makedirs E d : keeps same (os_makedirs E d).
Proof.
  intros s. unfold os_makedirs. destruct (makedirs_fault E d); reflexivity.
Qed.

(** The primitives that print nothing, and the prints other than the
    progress line. *)
Lemma calm_print (m : msg) : is_progress m = false → keeps no_estimate (print m).
Proof. intros Hm s. exists [m]. split; [done|]. cbn. by rewrite Hm. Qed.

Lemma calm_silent {A} (m : M A) :
  (∀ s, console (snd (m s)) = console s) → keeps no_estimate m.
Proof. intros H s. exists []. by rewrite H, app_nil_r. Qed.

Lemma calm_open_read E p : keeps no_estimate (open_read E p).
Proof. by apply calm_silent. Qed.

Lemma calm_disk_usage_free E d : keeps no_estimate (disk_usage_free E d).
Proof.
  apply calm_silent. intros s. unfold disk_usage_free.
  by destruct (disk_free E (files s) d).
Qed.

Lemma calm_getsize p : keeps no_estimate (getsize p).
Proof.
  apply calm_silent. intros s. unfold getsize. by destruct (files s !! p).
Qed.

Lemma calm_time_time E : keeps no_estimate (time_time E).
Proof. by apply calm_silent. Qed.

Lemma calm_write_text E p text : keeps no_estimate (write_text E p text).
Proof.
  apply calm_silent. intros s. unfold write_text.
  destruct (is_empty (dirname p)); [done|].
  by destruct (write_fault E (files s) p) as [[e [n|]]|].
Qed.

Lemma calm_os_remove E p : keeps no_estimate (os_remove E p).
Proof.
  apply calm_silent. intros s. unfold os_remove.
  destruct (remove_fault E (files s) p); [done|]. by destruct (files s !! p).
Qed.

Create HintDb keeps.
#[local] Hint Extern 1 (keeps _ (ret _)) => refine (keeps_ret _ _) : keeps.
#[local] Hint Extern 1 (keeps _ (raise _)) => refine (keeps_raise _ _) : keeps.
#[local] Hint Extern 1 (keeps _ (of_option _ _)) =>
  refine (keeps_of_option _ _ _) : keeps.
#[local] Hint Resolve quiet_print quiet_open_read quiet_disk_usage_free quiet_getsize
  quiet_time_time quiet_isfile quiet_listdir quiet_os_makedirs
  calm_open_read calm_disk_usage_free calm_getsize calm_time_time
  calm_write_text calm_os_remove : keeps.
#[local] Hint Extern 1 (keeps no_estimate (print _)) =>
  apply calm_print; reflexivity : keeps.
#[local] Hint Extern 2 (keeps _ (bind _ _)) =>
  refine (keeps_bind _ _ _ _ _); [|intros ?] : keeps.
#[local] Hint Extern 2 (keeps _ (try_except _ _)) =>
  refine (keeps_try_except _ _ _ _ _); [|intros ?] : keeps.
#[local] Hint Extern 3 (keeps _ (if _ then _ else _)) =>
  refine (keeps_if _ _ _ _ _ _) : keeps.
#[local] Hint Extern 3 (keeps _ (match ?e with _ => _ end)) =>
  destruct e : keeps.

Ltac solve_keeps := auto 30 with keeps.

Lemma quiet_is_valid_image E p : keeps same (is_valid_image E p).
Proof. unfold is_valid_image, imghdr_what. solve_keeps. Qed.

Lemma quiet_get_free_space E d : keeps same (get_free_space E d).
Proof. unfold get_free_space. solve_keeps. Qed.

Lemma quiet_convert_to_base64 E p : keeps same (convert_to_base64 E p).
Proof. unfold convert_to_base64. solve_keeps. Qed.

Lemma calm_is_valid_image E p : keeps no_estimate (is_valid_image E p).
Proof. unfold is_valid_image, imghdr_what. solve_keeps. Qed.

Lemma calm_get_free_space E d : keeps no_estimate (get_free_space E d).
Proof. unfold get_free_space. solve_keeps. Qed.

Lemma calm_convert_to_base64 E p : keeps no_estimate (convert_to_base64 E p).
Proof. unfold convert_to_base64. solve_keeps. Qed.

Lemma calm_save_base64_to_file E text o :
  keeps no_estimate (save_base64_to_file E text o).
Proof. unfold save_base64_to_file. solve_keeps. Qed.

Lemma calm_remove_file E p : keeps no_estimate (remove_file E p).
Proof. unfold remove_file. solve_keeps. Qed.

#[local] Hint Resolve quiet_is_valid_image quiet_get_free_space
  quiet_convert_to_base64 calm_is_valid_image calm_get_free_space
  calm_convert_to_base64 calm_save_base64_to_file calm_remove_file : keeps.

Lemma is_valid_image_spec E p s :
  is_valid_image E p s = (Ok (valid_image E (files s) p), s).
Proof.
  unfold is_valid_image, valid_image, imghdr_what, try_except, bind, open_read,
    ret.
  destruct (supported_suffix p); cbn [negb andb]; [|done].
  by destruct (read_file E (files s) p).
Qed.

Lemma get_free_space_spec E d s :
  ∃ s', get_free_space E d s = (Ok (free_space_value E (files s) d), s')
        ∧ same s s'.
Proof.
  unfold get_free_space, free_space_value, try_except, disk_usage_free, bind,
    print, ret.
  destruct (disk_free E (files s) d); cbn; eexists; (split; [done|by split]).
Qed.

Lemma convert_to_base64_spec E p s :
  ∃ s', convert_to_base64 E p s = (Ok (encoded E (files s) p), s')
        ∧ same s s'.
Proof.
  unfold convert_to_base64, encoded, try_except, bind, open_read, print, ret.
  destruct (read_file E (files s) p) as [data|[]]; cbn;
    eexists; (split; [done|by split]).
Qed.

Lemma valid_image_supported E fs p :
  valid_image E fs p = true → supported_suffix p = true.
Proof. unfold valid_image. by intros [? _]%andb_prop. Qed.

Lemma valid_image_exists E fs p :
  valid_image E fs p = true → ∃ data, read_file E fs p = Ok data
                                     ∧ fs !! p = Some data.
Proof.
  unfold valid_image, read_file. intros [_ H]%andb_prop.
  destruct (read_fault E fs p); [done|].
  destruct (fs !! p) as [data|]; [by eauto|done].
Qed.

(** [save_base64_to_file] always returns; it reports [True] exactly when
    the whole text reached the file. *)
Lemma save_base64_to_file_spec E text o s :
  ∃ saved s', save_base64_to_file E text o s = (Ok saved, s') ∧
    if saved
    then files s' = <[o := encode_utf8 text]> (files s)
         ∧ trace s' = (trace s ++ [SysWrite o true])%list
         ∧ is_empty (dirname o) = false
         ∧ write_fault E (files s) o = None
    else (files s' = files s ∨ ∃ d, files s' = <[o := d]> (files s))
         ∧ trace s' = (trace s ++ [SysWrite o false])%list.
Proof.
  unfold save_base64_to_file, try_except, bind, write_text, ret.
  destruct (is_empty (dirname o)) eqn:Hd.
  { exists false. cbn. eexists. split; [done|]. cbn. by auto. }
  destruct (write_fault E (files s) o) as [[e [n|]]|] eqn:Hw.
  - exists false.
    destruct e as [| |errno| |]; [| |destruct (errno =? 28)| |];
      cbn; eexists; (split; [done|]); cbn; by eauto.
  - exists false.
    destruct e as [| |errno| |]; [| |destruct (errno =? 28)| |];
      cbn; eexists; (split; [done|]); cbn; by eauto.
  - exists true. cbn. eexists. split; [done|]. by cbn.
Qed.

(** [remove_file] always returns; it reports [True] exactly when the file
    was there and was removed. *)
Lemma remove_file_spec E p s :
  ∃ removed s', remove_file E p s = (Ok removed, s') ∧
    if removed
    then files s' = delete p (files s)
         ∧ trace s' = (trace s ++ [SysRemove p true])%list
    else files s' = files s
         ∧ trace s' = (trace s ++ [SysRemove p false])%list
         ∧ (is_Some (remove_fault E (files s) p) ∨ files s !! p = None).
Proof.
  unfold remove_file, try_except, bind, os_remove, ret.
  destruct (remove_fault E (files s) p) as [e|] eqn:Hr.
  - exists false. destruct e; cbn; eexists; (split; [done|]); cbn; by eauto.
  - destruct (files s !! p) eqn:Hp.
    + exists true. cbn. eexists. split; [done|]. by cbn.
    + exists false. cbn. eexists. split; [done|]. cbn. by eauto.
Qed.

Lemma bind_ok {A B} (m : M A) (k : A → M B) s a s1 :
  m s = (Ok a, s1) → bind m k s = k a s1.
Proof. intros H. unfold bind. by rewrite H. Qed.

Lemma bind_raise {A B} (m : M A) (k : A → M B) s e s1 :
  m s = (Raise e, s1) → bind m k s = (Raise e, s1).
Proof. intros H. unfold bind. by rewrite H. Qed.

Lemma bind_assoc {A B C} (m : M A) (f : A → M B) (g : B → M C) s :
  bind (bind m f) g s = bind m (λ a, bind (f a) g) s.
Proof. unfold bind. by destruct (m s) as [[a|e] s1]. Qed.

Lemma bind_print {B} (m : msg) (k : unit → M B) s :
  bind (print m) k s
  = k tt (mkOS (files s) (console s ++ [m]) (trace s) (ticks s)).
Proof. reflexivity. Qed.

Lemma getsize_ok p s data :
  files s !! p = Some data → getsize p s = (Ok (Z.of_nat (length data)), s).
Proof. intros H. unfold getsize. by rewrite H. Qed.

(** Stepping through the body of the loop with the helpers' results. *)
Ltac step_valid :=
  erewrite bind_ok by apply is_valid_image_spec; cbn [files].

Ltac step_free :=
  match goal with
  | |- context [bind (get_free_space ?E ?d) _ ?s] =>
      let s' := fresh "s" in let Hs := fresh "Hfree" in
      let Hq := fresh "Hsame" in
      destruct (get_free_space_spec E d s) as (s' & Hs & Hq);
      erewrite bind_ok by exact Hs; cbn [files] in *
  end.

Ltac step_convert :=
  match goal with
  | |- context [bind (convert_to_base64 ?E ?p) _ ?s] =>
      let s' := fresh "s" in let Hs := fresh "Hconv" in
      let Hq := fresh "Hsame" in
      destruct (convert_to_base64_spec E p s) as (s' & Hs & Hq);
      erewrite bind_ok by exact Hs; cbn [files] in *
  end.

(** C5. An item whose file is larger than half the free space that
    [get_free_space] reports for its directory is counted as processed and
    as failed, and is skipped: the store and the system-call trace stay as
    they were, so nothing is written and nothing is removed. *)
Theorem C5_insufficient_space_skips (E : Env) (out : option string) (total : Z)
    (start : Q)
    (c : Z * Z) (p : string) (s : OS) (data : list byte) :
  files s !! p = Some data →
  free_space_value E (files s) (dirname p) < 2 * Z.of_nat (length data) →
  ∃ s', process_item E out total start c p s
        = (Ok (fst c + 1, snd c + 1), s')
        ∧ files s' = files s ∧ trace s' = trace s.
Proof.
  intros Hdata Hfree. unfold process_item.
  rewrite bind_print. step_valid.
  destruct (valid_image E (files s) p) eqn:Hvalid; cbn [negb].
  - step_free. destruct Hsame as [Hf Ht]. cbn [files trace] in *.
    erewrite bind_ok by (apply getsize_ok; rewrite Hf; exact Hdata).
    destruct (_ <? _) eqn:Hlt; [|lia].
    rewrite bind_print. eexists. split; [reflexivity|]. by cbn.
  - rewrite bind_print. eexists. split; [reflexivity|]. by cbn.
Qed.

Ltac step_save :=
  match goal with
  | |- context [bind (save_base64_to_file ?E ?t ?o) _ ?s] =>
      let saved := fresh "saved" in
      let s' := fresh "s" in let Hs := fresh "Hsave" in
      let Hq := fresh "Hsaved" in
      destruct (save_base64_to_file_spec E t o s) as (saved & s' & Hs & Hq);
      erewrite bind_ok by exact Hs; cbn [files trace] in *
  end.

Ltac step_remove :=
  match goal with
  | |- context [bind (remove_file ?E ?p) _ ?s] =>
      let removed := fresh "removed" in
      let s' := fresh "s" in let Hs := fresh "Hremove" in
      let Hq := fresh "Hremoved" in
      destruct (remove_file_spec E p s) as (removed & s' & Hs & Hq);
      erewrite bind_ok by exact Hs; cbn [files trace] in *
  end.

Ltac step_time :=
  erewrite (bind_ok (time_time _)) by reflexivity; cbn [files trace].

Lemma supported_nonempty p : supported_suffix p = true → is_empty p = false.
Proof. by destruct p. Qed.

Lemma output_path_of_is_Some E out p :
  is_empty p = false → is_Some (output_path_of E out p).
Proof.
  intros Hp. unfold output_path_of, relpath. rewrite Hp.
  destruct (truthy out); [|by eauto].
  destruct (_ ++ _)%list; by eauto.
Qed.

(** Every item is handled to the end: the body of the loop returns, counts
    the item as processed, and has one of the four effects. *)
Lemma process_item_spec (E : Env) (out : option string) (total : Z)
    (start : Q) (c : Z * Z) (p : string) (s : OS) :
  ∃ delta s', process_item E out total start c p s
              = (Ok (fst c + 1, snd c + delta), s')
              ∧ item_effect E out p s s' delta.
Proof.
  unfold process_item. rewrite bind_print. step_valid.
  destruct (valid_image E (files s) p) eqn:Hvalid; cbn [negb]; cycle 1.
  { rewrite bind_print. do 2 eexists. split; [reflexivity|].
    by apply effect_skipped. }
  destruct (valid_image_exists _ _ _ Hvalid) as (data & Hread & Hdata).
  pose proof (valid_image_supported _ _ _ Hvalid) as Hsupp.
  step_free. destruct Hsame as [Hf0 Ht0]. cbn [files trace] in *.
  erewrite bind_ok by (apply getsize_ok; rewrite Hf0; exact Hdata).
  destruct (_ <? _).
  { rewrite bind_print. do 2 eexists. split; [reflexivity|].
    by apply effect_skipped. }
  step_convert. destruct Hsame as [Hf1 Ht1].
  rewrite Hf0. unfold encoded. rewrite Hread.
  destruct (output_path_of_is_Some E out p (supported_nonempty _ Hsupp))
    as [o Ho].
  rewrite Ho. cbn [of_option]. erewrite (bind_ok (ret o)) by reflexivity.
  step_save. destruct saved.
  - destruct Hsaved as (Hf2 & Ht2 & _ & _). rewrite bind_assoc. step_remove.
    destruct removed.
    + destruct Hremoved as [Hf3 Ht3].
      erewrite (bind_ok (bind _ _)) by (rewrite bind_print; reflexivity).
      step_time. exists 0.
      destruct (1 <? _); [rewrite bind_print|]; eexists;
        (split; [rewrite Z.add_0_r; reflexivity|]);
        (eapply effect_deleted; [exact Ho|exact Hsupp|..]; cbn;
         [rewrite Hf3, Hf2, Hf1, Hf0; reflexivity
         |rewrite Ht3, Ht2, Ht1, Ht0, <- app_assoc; reflexivity]).
    + destruct Hremoved as (Hf3 & Ht3 & _).
      erewrite (bind_ok (bind _ _)) by (rewrite bind_print; reflexivity).
      step_time. exists 1.
      destruct (1 <? _); [rewrite bind_print|]; eexists;
        (split; [reflexivity|]);
        (eapply effect_kept; [exact Ho|..]; cbn;
         [rewrite Hf3, Hf2, Hf1, Hf0; reflexivity
         |rewrite Ht3, Ht2, Ht1, Ht0, <- app_assoc; reflexivity]).
  - destruct Hsaved as (Hf2 & Ht2).
    erewrite (bind_ok (ret _)) by reflexivity.
    step_time. exists 1.
    destruct (1 <? _); [rewrite bind_print|]; eexists;
      (split; [reflexivity|]);
      (eapply effect_write_failed; [exact Ho|..]; cbn;
       [destruct Hf2 as [Hf2|[d Hf2]]; [left|right; exists d];
        rewrite Hf2, Hf1, Hf0; reflexivity
       |rewrite Ht2, Ht1, Ht0; reflexivity]).
Qed.

Lemma write_then_delete_nil outp : write_then_delete outp [].
Proof. intros i p ok H. by rewrite lookup_nil in H. Qed.

Lemma write_then_delete_app outp t1 t2 :
  write_then_delete outp t1 → write_then_delete outp t2 →
  write_then_delete outp (t1 ++ t2).
Proof.
  intros H1 H2 i p ok Hi.
  apply lookup_app_Some in Hi as [Hi|[Hlen Hi]].
  - destruct (H1 _ _ _ Hi) as (j & o & -> & Ho & Hj).
    exists j, o. split_and!; [done..|]. by apply lookup_app_l_Some.
  - destruct (H2 _ _ _ Hi) as (j & o & Hij & Ho & Hj).
    exists (length t1 + j)%nat, o. split_and!; [lia|done|].
    rewrite lookup_app_r by lia. by replace (length t1 + j - length t1)%nat with j by lia.
Qed.

Lemma write_then_delete_effect E out p s s' delta :
  item_effect E out p s s' delta →
  ∃ t, trace s' = (trace s ++ t)%list
       ∧ write_then_delete (output_path_of E out) t.
Proof.
  intros [Hf Ht|o Ho Hf Ht|o d Ho Hf Ht|o d Ho Hs Hf Ht].
  - exists []. split; [by rewrite app_nil_r|apply write_then_delete_nil].
  - exists [SysWrite o false]. split; [done|].
    intros [|[|i]] q ok Hi; by simplify_eq/=.
  - exists [SysWrite o true; SysRemove p false]. split; [done|].
    intros [|[|[|i]]] q ok Hi; simplify_eq/=. by exists 0%nat, o.
  - exists [SysWrite o true; SysRemove p true]. split; [done|].
    intros [|[|[|i]]] q ok Hi; simplify_eq/=. by exists 0%nat, o.
Qed.

Lemma deleted_have_text_effect E out p s s' delta fs0 :
  item_effect E out p s s' delta →
  deleted_have_text (output_path_of E out) fs0 (files s) →
  deleted_have_text (output_path_of E out) fs0 (files s').
Proof.
  intros Heff Hinv q Hq0 Hq.
  destruct Heff as [Hf Ht|o Ho Hf Ht|o d Ho Hf Ht|o d Ho Hs Hf Ht].
  - rewrite Hf in *. by apply Hinv.
  - destruct Hf as [Hf|[d Hf]]; rewrite Hf in *; [by apply Hinv|].
    rewrite dom_insert_L in Hq.
    destruct (Hinv q Hq0) as (oq & Hoq & Hin); [set_solver|].
    exists oq. split; [done|]. rewrite dom_insert_L. set_solver.
  - rewrite Hf in *. rewrite dom_insert_L in Hq.
    destruct (Hinv q Hq0) as (oq & Hoq & Hin); [set_solver|].
    exists oq. split; [done|]. rewrite dom_insert_L. set_solver.
  - rewrite Hf in *. rewrite dom_delete_L, dom_insert_L in Hq.
    destruct (output_path_txt _ _ _ _ Ho) as [stem ->].
    pose proof (supported_not_txt p stem Hs) as Hne.
    destruct (decide (q = p)) as [->|Hqp].
    + exists (stem ++ ".txt"). split; [done|].
      rewrite dom_delete_L, dom_insert_L. set_solver.
    + destruct (Hinv q Hq0) as (oq & Hoq & Hin); [set_solver|].
      exists oq. split; [done|].
      destruct (output_path_txt _ _ _ _ Hoq) as [stemq ->].
      pose proof (supported_not_txt p stemq Hs).
      rewrite dom_delete_L, dom_insert_L. set_solver.
Qed.

(** The loop: it returns, counts every item as processed, never lowers
    [failed_files], and keeps both orderings. *)
Lemma for_each_process_item (E : Env) (out : option string) (total : Z)
    (start : Q) (fs0 : gmap string (list byte)) (l : list string) :
  ∀ (c : Z * Z) (s : OS),
    deleted_have_text (output_path_of E out) fs0 (files s) →
    ∃ c' s' t,
      for_each (process_item E out total start) l c s = (Ok c', s')
      ∧ fst c' = fst c + Z.of_nat (length l)
      ∧ snd c ≤ snd c' ≤ snd c + Z.of_nat (length l)
      ∧ trace s' = (trace s ++ t)%list
      ∧ write_then_delete (output_path_of E out) t
      ∧ deleted_have_text (output_path_of E out) fs0 (files s').
Proof.
  induction l as [|p l IH]; intros c s Hinv.
  - exists c, s, []. cbn [for_each length]. rewrite app_nil_r.
    split_and!; try done; try lia.
  - cbn [for_each].
    destruct (process_item_spec E out total start c p s)
      as (delta & s1 & Hitem & Heff).
    erewrite bind_ok by exact Hitem.
    destruct (write_then_delete_effect _ _ _ _ _ _ Heff) as (t1 & Ht1 & Hw1).
    pose proof (deleted_have_text_effect _ _ _ _ _ _ fs0 Heff Hinv) as Hinv1.
    destruct (IH (fst c + 1, snd c + delta) s1 Hinv1)
      as (c' & s' & t & Hrun & Hp & Hfl & Ht & Hw & Hinv').
    cbn [fst snd] in *.
    assert (Hdelta : 0 ≤ delta ≤ 1) by (destruct Heff; lia).
    exists c', s', (t1 ++ t)%list. split_and!; try done.
    + rewrite Hp. cbn [length]. lia.
    + cbn [length]. lia.
    + cbn [length]. lia.
    + by rewrite Ht, Ht1, <- app_assoc.
    + by apply write_then_delete_app.
Qed.

Lemma save_base64_to_file_ok E text o s :
  is_empty (dirname o) = false → write_fault E (files s) o = None →
  save_base64_to_file E text o s
  = (Ok true,
     mkOS (<[o := encode_utf8 text]> (files s)) (console s)
          (trace s ++ [SysWrite o true]) (ticks s)).
Proof.
  intros Hd Hw.
  unfold save_base64_to_file, try_except, bind, write_text, ret.
  by rewrite Hd, Hw.
Qed.

Lemma remove_file_fault E p s e :
  remove_fault E (files s) p = Some e →
  ∃ m, remove_file E p s
       = (Ok false,
          mkOS (files s) (console s ++ [m])
               (trace s ++ [SysRemove p false]) (ticks s)).
Proof.
  intros Hr. unfold remove_file, try_except, bind, os_remove, ret, print.
  rewrite Hr. destruct e; cbn; by eexists.
Qed.

(** C7. An item whose text file is written in full but whose original
    cannot be removed is reported as a partial success and adds one to
    [failed_files]; the text file stays in the store with the whole
    encoding, next to the original, and whatever items follow, the failure
    stays in the total that the loop returns. *)
Theorem C7_partial_success_counts_as_failure (E : Env) (out : option string)
    (total : Z) (start : Q) (c : Z * Z) (p o : string) (s : OS)
    (data : list byte) (e : exn) :
  valid_image E (files s) p = true →
  read_file E (files s) p = Ok data →
  2 * Z.of_nat (length data) ≤ free_space_value E (files s) (dirname p) →
  output_path_of E out p = Some o →
  is_empty (dirname o) = false →
  write_fault E (files s) o = None →
  remove_fault E (<[o := encode_utf8 (Base64.b64encode data)]> (files s)) p
    = Some e →
  ∃ s', process_item E out total start c p s
        = (Ok (fst c + 1, snd c + 1), s')
    ∧ In (MsgPartial o) (console s')
    ∧ files s' = <[o := encode_utf8 (Base64.b64encode data)]> (files s)
    ∧ trace s' = (trace s ++ [SysWrite o true; SysRemove p false])%list
    ∧ ∀ rest, ∃ c' s'',
        for_each (process_item E out total start) rest
          (fst c + 1, snd c + 1) s' = (Ok c', s'')
        ∧ snd c + 1 ≤ snd c'.
Proof.
  intros Hvalid Hread Hspace Ho Hdir Hwrite Hremove.
  destruct (valid_image_exists _ _ _ Hvalid) as (data' & Hread' & Hdata).
  assert (data' = data) as -> by congruence.
  unfold process_item. rewrite bind_print. step_valid. rewrite Hvalid.
  cbn [negb]. step_free. destruct Hsame as [Hf0 Ht0]. cbn [files trace] in *.
  erewrite bind_ok by (apply getsize_ok; rewrite Hf0; exact Hdata).
  destruct (_ <? _) eqn:Hlt; [lia|].
  step_convert. destruct Hsame as [Hf1 Ht1].
  rewrite Hf0. unfold encoded. rewrite Hread, Ho. cbn [of_option].
  erewrite (bind_ok (ret o)) by reflexivity.
  erewrite bind_ok
    by (apply save_base64_to_file_ok; [exact Hdir|by rewrite Hf1, Hf0]).
  cbv beta iota. rewrite bind_assoc.
  edestruct (remove_file_fault E p) as [m Hrm];
    [|erewrite bind_ok by exact Hrm].
  { cbn [files]. rewrite Hf1, Hf0. exact Hremove. }
  cbv beta iota.
  erewrite (bind_ok (bind _ _)) by (rewrite bind_print; reflexivity).
  step_time.
  assert (Hrest : ∀ s', files s' = <[o := encode_utf8 (Base64.b64encode data)]> (files s) →
    ∀ rest, ∃ c' s'',
        for_each (process_item E out total start) rest
          (fst c + 1, snd c + 1) s' = (Ok c', s'')
        ∧ snd c + 1 ≤ snd c').
  { intros s' _ rest.
    destruct (for_each_process_item E out total start (files s') rest
                (fst c + 1, snd c + 1) s')
      as (c' & s'' & t & Hrun & _ & Hfl & _); [by intros q ? ?|].
    exists c', s''. split; [done|]. cbn [snd] in Hfl. lia. }
  destruct (1 <? _); [rewrite bind_print|]; eexists;
    (split; [reflexivity|]); cbn [files console trace];
    (split_and!;
     [rewrite !in_app_iff; cbn; by auto 10
     |by rewrite Hf1, Hf0
     |by rewrite Ht1, Ht0, <- app_assoc
     |apply Hrest; cbn [files]; by rewrite Hf1, Hf0]).
Qed.

Lemma calm_first_item E out total start failed p :
  keeps no_estimate (process_item E out total start (0, failed) p).
Proof.
  unfold process_item. cbn [fst snd]. change (1 <? 0 + 1) with false.
  cbv iota. solve_keeps.
Qed.

(** A run over a single file prints no progress line, whatever happens to
    the file. *)
Lemma single_file_no_estimate E p out s :
  no_estimate s (snd (process_images E [p] out s)).
Proof.
  revert s. change (keeps no_estimate (process_images E [p] out)).
  unfold process_images. cbn [for_each length].
  pose proof calm_first_item. solve_keeps.
Qed.

Lemma forget_bind {A} (m : M A) (k1 : A → M Z) (k2 : A → M (Z * run_outcome)) s :
  (∀ a s1, k1 a s1 = forget_outcome (k2 a s1)) →
  bind m k1 s = forget_outcome (bind m k2 s).
Proof.
  intros Hk. unfold bind. destruct (m s) as [[a|e] s1]; [apply Hk|done].
Qed.

Lemma main_traced_code (E : Env) (a : args) (s : OS) :
  main E a s = forget_outcome (main_traced E a s).
Proof.
  unfold main, main_traced.
  destruct (negb (isdir E (directory a))); [done|].
  apply forget_bind. intros created s1.
  destruct (negb created); [done|].
  apply forget_bind. intros [] s2.
  apply forget_bind. intros image_files s3.
  destruct (is_nil image_files); [done|].
  apply forget_bind. intros [] s4.
  apply forget_bind. intros counts s5.
  apply forget_bind. intros [] s6.
  apply forget_bind. intros [] s7.
  apply forget_bind. intros [] s8. done.
Qed.

Lemma create_output_dir_step (E : Env) (d : string) (s : OS) :
  try_except
    (run os_makedirs E d ;; run print (MsgOutputDirCreated d) ;; ret true)
    (λ e, run print (MsgOutputDirError d e) ;; ret false) s
  = match makedirs_fault E d with
    | None =>
        (Ok true,
         mkOS (files s) (console s ++ [MsgOutputDirCreated d]) (trace s)
              (ticks s))
    | Some e =>
        (Ok false,
         mkOS (files s) (console s ++ [MsgOutputDirError d e]) (trace s)
              (ticks s))
    end.
Proof.
  unfold try_except, bind, os_makedirs, print, ret.
  by destruct (makedirs_fault E d).
Qed.

(** Case analysis on the computation that the goal runs next; a raised
    exception ends the goal. *)
Ltac case_bind a H :=
  match goal with
  | |- context [bind ?m _ ?s] =>
      let e := fresh "e" in let s' := fresh "s" in
      destruct (m s) as [[a|e] s'] eqn:H;
      [erewrite bind_ok by exact H|by erewrite bind_raise by exact H]
  end.

(** C9. The exit status is 0 exactly when the directory exists,
    the output directory is there when the scan starts, the run comes to its
    end, and it counted no failed item; in every other case it is 1. *)
Theorem C9_exit_status (E : Env) (a : args) (s : OS) :
  exit_status (fst (main E a s))
  = if negb (isdir E (directory a)) then 1
    else if negb (output_dir_ready E a) then 1
    else match fst (main_traced E a s) with
         | Ok (_, o) => if failed_items o =? 0 then 0 else 1
         | Raise _ => 1
         end.
Proof.
  rewrite main_traced_code. unfold forget_outcome. cbn [fst].
  unfold main_traced, output_dir_ready.
  destruct (isdir E (directory a)); cbn [negb]; [|done].
  destruct (truthy (output_dir a) && negb (path_exists E _)); cbn [negb orb].
  - destruct (makedirs_fault E _) as [e|] eqn:Hmk.
    { by erewrite bind_ok by (rewrite create_output_dir_step, Hmk; reflexivity). }
    erewrite bind_ok by (rewrite create_output_dir_step, Hmk; reflexivity).
    cbn [negb]. rewrite !bind_print.
    case_bind l Hfind.
    destruct (is_nil l); [done|]. rewrite bind_print.
    case_bind counts Hp. rewrite !bind_print.
    destruct (0 <? snd counts); [rewrite bind_print|];
      cbn; by destruct (snd counts =? 0).
  - erewrite (bind_ok (ret true)) by reflexivity. cbn [negb].
    rewrite !bind_print.
    case_bind l Hfind.
    destruct (is_nil l); [done|]. rewrite bind_print.
    case_bind counts Hp. rewrite !bind_print.
    destruct (0 <? snd counts); [rewrite bind_print|];
      cbn; by destruct (snd counts =? 0).
Qed.

End ConverterFacts.

(** * The encoder and the validator *)

Module EncoderFacts.
Import ConverterSpec PathFacts ConverterFacts.

Lemma length_string_of_list_ascii (l : list ascii) :
  String.length (string_of_list_ascii l) = length l.
Proof. induction l as [|x l IH]; [done|]. cbn. by rewrite IH. Qed.

(** C2. Whatever bytes are read from a file, both scripts' encoders return
    the same text; decoding it as padded Base64 gives the bytes back, it
    has four characters for every started group of three bytes, and all of
    them are of the Base64 alphabet or the padding character. *)
Theorem C2_base64_round_trip (E : Env) (p : string) (s : OS)
    (data : list byte) :
  read_file E (files s) p = Ok data →
  ∃ text,
    fst (Converter.convert_to_base64 E p s) = Ok (Some text)
    ∧ fst (Aggregator.convert_to_base64 E p s) = Ok text
    ∧ Base64.b64decode text = Some data
    ∧ Z.of_nat (String.length text) = 4 * ((Z.of_nat (length data) + 2) / 3)
    ∧ forallb Base64.is_base64_char (list_ascii_of_string text) = true.
Proof.
  intros Hread. exists (Base64.b64encode data).
  unfold Converter.convert_to_base64, Aggregator.convert_to_base64,
    try_except, bind, open_read, ret.
  rewrite Hread. cbn [fst]. split_and!; try done.
  - apply Base64Facts.b64decode_b64encode.
  - unfold Base64.b64encode. rewrite length_string_of_list_ascii.
    apply Base64Facts.length_encode_chars.
  - unfold Base64.b64encode. rewrite list_ascii_of_string_of_list_ascii.
    apply Base64Facts.encode_chars_alphabet.
Qed.

(** C6. [is_valid_image] returns a boolean for every path and every state,
    and leaves the state as it was; when sniffing the content raises, the
    boolean is [False]. *)
Theorem C6_is_valid_image_never_raises (E : Env) (p : string) (s : OS) :
  ∃ b, Converter.is_valid_image E p s = (Ok b, s)
       ∧ match fst (imghdr_what E p s) with
         | Raise _ => b = false
         | Ok img_type =>
             b = Converter.supported_suffix p && bool_decide (is_Some img_type)
         end.
Proof.
  exists (Converter.valid_image E (files s) p).
  split; [apply is_valid_image_spec|].
  unfold Converter.valid_image, imghdr_what, bind, open_read, ret.
  destruct (read_file E (files s) p); cbn [fst]; [done|].
  by rewrite andb_false_r.
Qed.

End EncoderFacts.

(** * Variant B: the dictionary and the generated file *)

Module AggregatorFacts.
Import Aggregator ConverterSpec AggregatorSpec PathFacts ConverterFacts.

Lemma convert_to_base64_value E p s :
  ∃ s', convert_to_base64 E p s
        = (Ok (match read_file E (files s) p with
               | Ok data => Base64.b64encode data
               | Raise _ => ""
               end), s')
        ∧ same s s'.
Proof.
  unfold convert_to_base64, try_except, bind, open_read, print, ret.
  destruct (read_file E (files s) p); cbn; eexists; (split; [done|by split]).
Qed.

Lemma scan_file_spec E directory total acc rf key s :
  relative_key E directory rf = Some key →
  ∃ s', scan_file E directory total acc rf s
        = (Ok (match stored_text E (files s) (join2 (fst rf) (snd rf)) with
               | Some text => <[key := text]> (fst acc)
               | None => fst acc
               end, snd acc + 1), s')
        ∧ same s s'.
Proof.
  intros Hkey. unfold scan_file. rewrite Hkey, bind_print.
  match goal with
  | |- context [bind (convert_to_base64 ?E ?p) _ ?s] =>
      destruct (convert_to_base64_value E p s) as (s1 & Hc & [Hf Ht])
  end.
  erewrite bind_ok by exact Hc. cbn [files trace] in *.
  rewrite bind_print. eexists. split.
  { unfold ret, stored_text.
    destruct (read_file E (files s) _) as [data|e]; [|done].
    destruct data as [|a data]; [done|].
    destruct (Base64.b64encode (a :: data)) eqn:Henc; [|done].
    by apply Base64Facts.b64encode_empty_iff in Henc. }
  by split.
Qed.

(** C10. A zero-byte image file and an image file that cannot be read are
    treated alike: the encoder returns the empty string for both, and the
    loop counts the file as processed while leaving the dictionary as it
    was. *)
Theorem C10_empty_file_dropped_like_failed_read (E : Env)
    (directory : string) (total : Z) (acc : gmap string string * Z)
    (rf : string * string) (key : string) (s : OS) :
  relative_key E directory rf = Some key →
  (read_file E (files s) (join2 (fst rf) (snd rf)) = Ok []
   ∨ ∃ e, read_file E (files s) (join2 (fst rf) (snd rf)) = Raise e) →
  fst (convert_to_base64 E (join2 (fst rf) (snd rf)) s) = Ok ""
  ∧ ∃ s', scan_file E directory total acc rf s
          = (Ok (fst acc, snd acc + 1), s').
Proof.
  intros Hkey Hread. split.
  - destruct (convert_to_base64_value E (join2 (fst rf) (snd rf)) s)
      as (s1 & -> & _).
    by destruct Hread as [-> | [e ->]].
  - destruct (scan_file_spec E directory total acc rf key s Hkey)
      as (s' & Hs & _).
    exists s'. rewrite Hs. unfold stored_text.
    by destruct Hread as [-> | [e ->]].
Qed.

Lemma stored_text_Some E fs p :
  is_Some (stored_text E fs p) ↔ ∃ data, read_file E fs p = Ok data ∧ data ≠ [].
Proof.
  unfold stored_text. destruct (read_file E fs p) as [[|a data]|e]; split.
  - by intros [? ?].
  - by intros (data & [= <-] & ?).
  - intros _. by exists (a :: data).
  - by eauto.
  - by intros [? ?].
  - by intros (data & ? & ?).
Qed.

Lemma scan_loop (E : Env) (directory : string) (total : Z)
    (l : list (string * string)) :
  ∀ acc s d n s',
    for_each (scan_file E directory total) l acc s = (Ok (d, n), s') →
    files s' = files s
    ∧ n = snd acc + Z.of_nat (length l)
    ∧ ∀ k, k ∈ dom d ↔
        k ∈ dom (fst acc)
        ∨ ∃ rf, rf ∈ l ∧ relative_key E directory rf = Some k
                ∧ is_Some (stored_text E (files s) (join2 (fst rf) (snd rf))).
Proof.
  induction l as [|rf l IH]; intros acc s d n s' Hrun.
  - cbn [for_each] in Hrun. unfold ret in Hrun. simplify_eq.
    cbn [fst snd length]. split_and!; [done|lia|].
    intros k. split; [by auto|]. intros [?|(rf & Hin & _)]; [done|].
    by apply elem_of_nil in Hin.
  - cbn [for_each] in Hrun.
    destruct (relative_key E directory rf) as [key|] eqn:Hkey; cycle 1.
    { unfold scan_file in Hrun. rewrite Hkey in Hrun. by cbn in Hrun. }
    destruct (scan_file_spec E directory total acc rf key s Hkey)
      as (s1 & Hstep & [Hf Ht]).
    erewrite bind_ok in Hrun by exact Hstep.
    apply IH in Hrun as (Hf' & Hn & Hdom). cbn [fst snd] in *.
    split_and!; [congruence|cbn [length]; lia|].
    intros k. rewrite Hdom, Hf. clear Hdom. split.
    + intros [Hk|(rf' & Hin & Hk' & Hst)].
      * destruct (stored_text E (files s) (join2 rf.1 rf.2)) eqn:Hst;
          [|by left].
        apply elem_of_dom in Hk. apply lookup_insert_is_Some in Hk.
        destruct Hk as [<-|[_ Hk]].
        -- right. exists rf. rewrite Hst. split_and!; [by left|done|by eauto].
        -- left. by apply elem_of_dom.
      * right. exists rf'. split_and!; [by right|done..].
    + intros [Hk|(rf' & Hin & Hk' & Hst)].
      * left. destruct (stored_text E (files s) (join2 rf.1 rf.2));
          [|done].
        rewrite dom_insert_L. apply elem_of_union. by right.
      * apply elem_of_cons in Hin as [->|Hin].
        -- left. destruct Hst as [text Hst]. rewrite Hst.
           assert (k = key) as -> by congruence.
           rewrite dom_insert_L. apply elem_of_union. left.
           by apply elem_of_singleton.
        -- right. by exists rf'.
Qed.

Lemma rfind_aux_replaced (a b : ascii) (s : string) (i acc : Z) :
  a ≠ b → rfind_aux a (replace_char a b s) i acc = acc.
Proof.
  intros Hab. revert i acc. induction s as [|x s IH]; intros i acc; [done|].
  cbn [replace_char rfind_aux]. rewrite IH.
  destruct (Ascii.eqb x a) eqn:Hx.
  - destruct (Ascii.eqb b a) eqn:Hb; [|done].
    apply Ascii.eqb_eq in Hb. congruence.
  - by rewrite Hx.
Qed.

Lemma relative_key_no_backslash E directory rf key :
  relative_key E directory rf = Some key → rfind BACKSLASH key = -1.
Proof.
  unfold relative_key. destruct (relpath _ _ _) as [rel|]; [|done].
  intros [= <-]. by apply rfind_aux_replaced.
Qed.

Lemma keys_of_dart_entries (d : gmap string string) :
  map fst (dart_entries d) = sorted_keys d.
Proof.
  unfold dart_entries. rewrite map_map. cbn [fst]. apply map_id.
Qed.

Lemma sorted_keys_spec (d : gmap string string) :
  Sorted String.le (sorted_keys d) ∧ NoDup (sorted_keys d)
  ∧ ∀ k, k ∈ sorted_keys d ↔ k ∈ dom d.
Proof.
  unfold sorted_keys. split_and!.
  - apply Sorted_merge_sort, _.
  - rewrite merge_sort_Permutation. apply NoDup_elements.
  - intros k. rewrite merge_sort_Permutation. apply elem_of_elements.
Qed.

(** C4. The keys that [generate_dart_file] writes for the
    dictionary of a scan are in ascending order without repetition, contain
    no backslash, and are exactly the relative paths of the discovered images
    whose content could be read and is not empty. *)
Theorem C4_keys_sorted_and_nonempty_images (E : Env) (directory : string)
    (s s' : OS) (d : gmap string string) :
  scan_directory E directory s = (Ok d, s') →
  let keys := map fst (dart_entries d) in
  Sorted String.le keys ∧ NoDup keys
  ∧ (∀ k, k ∈ keys → rfind BACKSLASH k = -1)
  ∧ ∀ k, k ∈ keys ↔
      ∃ rf data, rf ∈ discovered E directory
                 ∧ relative_key E directory rf = Some k
                 ∧ read_file E (files s) (join2 (fst rf) (snd rf)) = Ok data
                 ∧ data ≠ [].
Proof.
  intros Hscan keys. subst keys. rewrite keys_of_dart_entries.
  destruct (sorted_keys_spec d) as (Hsorted & Hnodup & Hmem).
  unfold scan_directory, scan_directory_counted in Hscan.
  rewrite bind_assoc in Hscan.
  match type of Hscan with
  | bind ?m _ s = _ => destruct (m s) as [[[d1 n1]|e] s1] eqn:Hloop
  end; [|by rewrite (bind_raise _ _ _ _ _ Hloop) in Hscan].
  erewrite bind_ok in Hscan by exact Hloop.
  rewrite bind_assoc, bind_print in Hscan.
  unfold bind, ret in Hscan. cbn [fst] in Hscan. simplify_eq.
  apply scan_loop in Hloop as (_ & _ & Hdom). cbn [fst] in Hdom.
  assert (Hkeys : ∀ k, k ∈ sorted_keys d ↔
            ∃ rf, rf ∈ discovered E directory
                  ∧ relative_key E directory rf = Some k
                  ∧ is_Some (stored_text E (files s) (join2 rf.1 rf.2))).
  { intros k. rewrite Hmem, Hdom, dom_empty_L. split; [|by auto].
    intros [Hk|?]; [|done]. by apply elem_of_empty in Hk. }
  split_and!; [done..| |].
  - intros k (rf & _ & Hk & _)%Hkeys.
    by eapply relative_key_no_backslash.
  - intros k. rewrite Hkeys. split.
    + intros (rf & Hin & Hk & (data & Hr & Hne)%stored_text_Some).
      by exists rf, data.
    + intros (rf & data & Hin & Hk & Hr & Hne). exists rf.
      split_and!; [done..|]. apply stored_text_Some. by exists data.
Qed.

End AggregatorFacts.

(** * Variant A: what a run touches and how it counts *)

Module ConverterMore.
Import Converter ConverterSpec MoreSpec PathFacts ConverterFacts.

Lemma removed_count_app t1 t2 :
  removed_count (t1 ++ t2) = removed_count t1 + removed_count t2.
Proof. unfold removed_count. rewrite filter_app, length_app. lia. Qed.

(** What the effect of one item says about counting and about the paths it
    touches. *)
Lemma item_effect_frame E out p s s' delta :
  item_effect E out p s s' delta →
  ∃ t, trace s' = (trace s ++ t)%list
    ∧ delta = 1 - removed_count t
    ∧ (∀ q, q ∈ dom (files s) → q ∉ dom (files s') →
            q = p ∧ supported_suffix p = true)
    ∧ (∀ q, files s' !! q = files s !! q
            ∨ (q = p ∧ supported_suffix p = true)
            ∨ output_path_of E out p = Some q).
Proof.
  intros [Hf Ht|o Ho Hf Ht|o d Ho Hf Ht|o d Ho Hs Hf Ht].
  - exists []. rewrite app_nil_r, Hf. split_and!; [done..| |by left].
    intros q ? ?. done.
  - exists [SysWrite o false]. split_and!; [done..| |].
    + intros q Hq Hnq. destruct Hf as [Hf|[d Hf]]; rewrite Hf in Hnq; [done|].
      rewrite dom_insert_L in Hnq. set_solver.
    + intros q. destruct Hf as [Hf|[d Hf]]; rewrite Hf; [by left|].
      destruct (decide (o = q)) as [->|Hne]; [by right; right|].
      left. by rewrite lookup_insert_ne.
  - exists [SysWrite o true; SysRemove p false]. split_and!; [done..| |].
    + intros q Hq Hnq. rewrite Hf, dom_insert_L in Hnq. set_solver.
    + intros q. rewrite Hf.
      destruct (decide (o = q)) as [->|Hne]; [by right; right|].
      left. by rewrite lookup_insert_ne.
  - exists [SysWrite o true; SysRemove p true]. split_and!; [done..| |].
    + intros q Hq Hnq. rewrite Hf, dom_delete_L, dom_insert_L in Hnq.
      destruct (decide (q = p)) as [->|Hne]; [done|]. set_solver.
    + intros q. rewrite Hf.
      destruct (decide (q = p)) as [->|Hqp]; [by right; left|].
      rewrite lookup_delete_ne by done.
      destruct (decide (o = q)) as [->|Hne]; [by right; right|].
      left. by rewrite lookup_insert_ne.
Qed.

(** The loop once more, with the exact count and the frame. *)
Lemma for_each_frame (E : Env) (out : option string) (total : Z) (start : Q)
    (l : list string) :
  ∀ (c : Z * Z) (s : OS),
    ∃ c' s' t,
      for_each (process_item E out total start) l c s = (Ok c', s')
      ∧ trace s' = (trace s ++ t)%list
      ∧ fst c' = fst c + Z.of_nat (length l)
      ∧ snd c' = snd c + Z.of_nat (length l) - removed_count t
      ∧ (∀ q, q ∈ dom (files s) → q ∉ dom (files s') →
              q ∈ l ∧ supported_suffix q = true)
      ∧ (∀ q, files s' !! q = files s !! q
              ∨ (q ∈ l ∧ supported_suffix q = true)
              ∨ ∃ p, p ∈ l ∧ output_path_of E out p = Some q).
Proof.
  induction l as [|p l IH]; intros c s.
  - exists c, s, []. cbn [for_each length]. rewrite app_nil_r.
    split_and!; try done; try (unfold removed_count; cbn; lia).
    intros q. by left.
  - cbn [for_each].
    destruct (process_item_spec E out total start c p s)
      as (delta & s1 & Hitem & Heff).
    erewrite bind_ok by exact Hitem.
    destruct (item_effect_frame _ _ _ _ _ _ Heff)
      as (t1 & Ht1 & Hdelta & Hgone1 & Hframe1).
    destruct (IH (fst c + 1, snd c + delta) s1)
      as (c' & s' & t & Hrun & Ht & Hp & Hfl & Hgone & Hframe).
    cbn [fst snd] in *.
    exists c', s', (t1 ++ t)%list. split_and!.
    + done.
    + by rewrite Ht, Ht1, <- app_assoc.
    + rewrite Hp. cbn [length]. lia.
    + rewrite Hfl, removed_count_app. cbn [length]. lia.
    + intros q Hq Hnq. destruct (decide (q ∈ dom (files s1))) as [Hq1|Hq1].
      * destruct (Hgone q Hq1 Hnq) as [Hin Hs]. split; [by right|done].
      * destruct (Hgone1 q Hq Hq1) as [-> Hs]. split; [by left|done].
    + intros q. destruct (Hframe q) as [Heq|[[Hin Hs]|(p' & Hin & Ho)]].
      * destruct (Hframe1 q) as [Heq1|[[-> Hs]|Ho]].
        -- left. congruence.
        -- right. left. split; [by left|done].
        -- right. right. exists p. split; [by left|done].
      * right. left. split; [by right|done].
      * right. right. exists p'. split; [by right|done].
Qed.

(** X1. Whenever [process_images] returns, it has counted every file
    once: the two numbers it returns add up to the number of files, and the
    first, the number of successes, is the number of originals that the run
    removed. *)
Theorem X1_counts_add_up (E : Env) (image_files : list string)
    (output_dir : option string) (s s' : OS) (success failed : Z) :
  process_images E image_files output_dir s = (Ok (success, failed), s') →
  ∃ t,
    trace s' = (trace s ++ t)%list
    ∧ success + failed = Z.of_nat (length image_files)
    ∧ success = removed_count t
    ∧ 0 ≤ success ∧ 0 ≤ failed.
Proof.
  unfold process_images. erewrite (bind_ok (time_time E)) by reflexivity.
  match goal with
  | |- context [bind (for_each ?b ?l ?c) _ ?s0] =>
      destruct (for_each_frame E output_dir (Z.of_nat (length image_files))
                  (clock E (ticks s)) image_files c s0)
        as (c' & s1 & t & Hrun & Ht & Hp & Hfl & _ & _);
      destruct (for_each_process_item E output_dir
                  (Z.of_nat (length image_files)) (clock E (ticks s))
                  (files s0) image_files c s0)
        as (c2 & s2 & t2 & Hrun2 & _ & Hbounds & _); [by intros q ? ?|]
  end.
  rewrite Hrun in Hrun2. simplify_eq. cbn [fst snd] in *.
  erewrite bind_ok by exact Hrun. unfold ret. intros [= <- <- <-].
  exists t. split_and!; [done|lia|lia|lia|lia].
Qed.

(** X2. The only files a run of [process_images] removes are files of the
    list it was given, with a supported extension. *)
Theorem X2_removes_only_listed_images (E : Env) (image_files : list string)
    (output_dir : option string) (s : OS) (q : string) :
  q ∈ dom (files s) →
  q ∉ dom (files (snd (process_images E image_files output_dir s))) →
  q ∈ image_files ∧ supported_suffix q = true.
Proof.
  unfold process_images. erewrite (bind_ok (time_time E)) by reflexivity.
  match goal with
  | |- context [bind (for_each ?b ?l ?c) _ ?s0] =>
      destruct (for_each_frame E output_dir (Z.of_nat (length image_files))
                  (clock E (ticks s)) image_files c s0)
        as (c' & s' & t & Hrun & _ & _ & _ & Hgone & _)
  end.
  erewrite bind_ok by exact Hrun. cbn [snd files] in *. apply Hgone.
Qed.

(** X3. A run of [process_images] leaves every path as it was, unless the
    path is a file of the list with a supported extension or the output path
    of a file of the list. *)
Theorem X3_touches_only_images_and_outputs (E : Env)
    (image_files : list string) (output_dir : option string) (s : OS)
    (q : string) :
  files (snd (process_images E image_files output_dir s)) !! q = files s !! q
  ∨ (q ∈ image_files ∧ supported_suffix q = true)
  ∨ ∃ p, p ∈ image_files ∧ output_path_of E output_dir p = Some q.
Proof.
  unfold process_images. erewrite (bind_ok (time_time E)) by reflexivity.
  match goal with
  | |- context [bind (for_each ?b ?l ?c) _ ?s0] =>
      destruct (for_each_frame E output_dir (Z.of_nat (length image_files))
                  (clock E (ticks s)) image_files c s0)
        as (c' & s' & t & Hrun & _ & _ & _ & _ & Hframe)
  end.
  erewrite bind_ok by exact Hrun. cbn [snd files] in *. apply Hframe.
Qed.

Lemma txt_not_image_file (stem : string) :
  Aggregator.is_image_file (stem ++ ".txt") = false.
Proof.
  unfold Aggregator.is_image_file.
  destruct (path_suffix_txt stem) as [-> | ->]; by vm_compute.
Qed.

(** X4. The text file of an item is never taken for an image: its path has
    no supported extension for either script, and [is_valid_image] answers
    [False] on it without looking at the file. *)
Theorem X4_outputs_are_not_images (E : Env) (output_dir : option string)
    (p o : string) (s : OS) :
  output_path_of E output_dir p = Some o →
  supported_suffix o = false
  ∧ Aggregator.is_image_file o = false
  ∧ is_valid_image E o s = (Ok false, s).
Proof.
  intros Ho. destruct (output_path_txt _ _ _ _ Ho) as [stem ->].
  split_and!.
  - apply txt_not_supported.
  - apply txt_not_image_file.
  - rewrite is_valid_image_spec. unfold valid_image.
    by rewrite txt_not_supported.
Qed.

(** X5. A file that [is_valid_image] rejects is counted as processed and
    as failed; the script prints the two lines for it and does nothing else:
    no write, no removal, no reading of the clock, no progress line. *)
Theorem X5_invalid_image_is_skipped (E : Env) (out : option string)
    (total : Z) (start : Q) (c : Z * Z) (p : string) (s : OS) :
  fst (is_valid_image E p s) = Ok false →
  process_item E out total start c p s
  = (Ok (fst c + 1, snd c + 1),
     mkOS (files s)
          (console s ++ [MsgProcessing p (fst c + 1) total; MsgSkipInvalid p])
          (trace s) (ticks s)).
Proof.
  rewrite is_valid_image_spec. cbn [fst]. intros [= Hvalid].
  unfold process_item. rewrite bind_print. step_valid. rewrite Hvalid.
  cbn [negb]. rewrite bind_print. unfold ret. cbn [files console trace ticks].
  by rewrite <- app_assoc.
Qed.

Lemma remove_file_ok E p s data :
  remove_fault E (files s) p = None → files s !! p = Some data →
  remove_file E p s
  = (Ok true,
     mkOS (delete p (files s)) (console s) (trace s ++ [SysRemove p true])
          (ticks s)).
Proof.
  intros Hr Hp. unfold remove_file, try_except, bind, os_remove, ret.
  by rewrite Hr, Hp.
Qed.

Lemma decode_ascii_encode_utf8 (text : string) :
  decode_ascii (encode_utf8 text) = text.
Proof.
  unfold decode_ascii, encode_utf8. rewrite map_map.
  rewrite (map_ext _ id) by (intros a; apply ascii_of_byte_of_ascii).
  rewrite map_id. apply string_of_list_ascii_of_string.
Qed.

(** X6. An item that is a valid image, fits the free space, and whose text
    can be written and whose original can be removed is a success: it adds
    nothing to [failed_files], the success line is printed, the original is
    gone, and the text file holds text that decodes to the original bytes. *)
Theorem X6_success_replaces_image_by_text (E : Env) (out : option string)
    (total : Z) (start : Q) (c : Z * Z) (p o : string) (s : OS)
    (data : list byte) :
  fst (is_valid_image E p s) = Ok true →
  read_file E (files s) p = Ok data →
  2 * Z.of_nat (length data) ≤ free_space_value E (files s) (dirname p) →
  output_path_of E out p = Some o →
  is_empty (dirname o) = false →
  write_fault E (files s) o = None →
  remove_fault E (<[o := encode_utf8 (Base64.b64encode data)]> (files s)) p
    = None →
  ∃ s', process_item E out total start c p s = (Ok (fst c + 1, snd c), s')
    ∧ In (MsgSuccess p o) (console s')
    ∧ trace s' = (trace s ++ [SysWrite o true; SysRemove p true])%list
    ∧ files s' !! p = None
    ∧ ∃ text, files s' !! o = Some text
              ∧ Base64.b64decode (decode_ascii text) = Some data.
Proof.
  rewrite is_valid_image_spec. cbn [fst].
  intros [= Hvalid] Hread Hspace Ho Hdir Hwrite Hremove.
  destruct (valid_image_exists _ _ _ Hvalid) as (data' & Hread' & Hdata).
  assert (data' = data) as -> by congruence.
  pose proof (valid_image_supported _ _ _ Hvalid) as Hsupp.
  destruct (output_path_txt _ _ _ _ Ho) as [stem ->].
  pose proof (supported_not_txt p stem Hsupp) as Hne.
  unfold process_item. rewrite bind_print. step_valid. rewrite Hvalid.
  cbn [negb]. step_free. destruct Hsame as [Hf0 Ht0]. cbn [files trace] in *.
  erewrite bind_ok by (apply getsize_ok; rewrite Hf0; exact Hdata).
  destruct (_ <? _) eqn:Hlt; [lia|].
  step_convert. destruct Hsame as [Hf1 Ht1].
  rewrite Hf0. unfold encoded. rewrite Hread, Ho. cbn [of_option].
  erewrite (bind_ok (ret _)) by reflexivity.
  erewrite bind_ok
    by (apply save_base64_to_file_ok; [exact Hdir|by rewrite Hf1, Hf0]).
  cbv beta iota. rewrite bind_assoc.
  erewrite bind_ok
    by (apply (remove_file_ok _ _ _ data); cbn [files]; rewrite Hf1, Hf0;
        [exact Hremove|by rewrite lookup_insert_ne]).
  cbv beta iota.
  erewrite (bind_ok (bind _ _)) by (rewrite bind_print; reflexivity).
  step_time.
  destruct (1 <? _); [rewrite bind_print|]; eexists;
    (split; [reflexivity|]); cbn [files console trace];
    rewrite Hf1, Hf0, Ht1, Ht0;
    (split_and!;
     [rewrite !in_app_iff; cbn; by auto 10
     |by rewrite <- app_assoc
     |by rewrite lookup_delete_eq
     |eexists; split;
      [rewrite lookup_delete_ne by done; apply lookup_insert_eq
      |rewrite decode_ascii_encode_utf8;
       apply Base64Facts.b64decode_b64encode]]).
Qed.

(** X7. When the free space of the directory cannot be read,
    [get_free_space] answers 0 instead of raising, and every image that is
    not empty is then skipped as short of space: counted as failed, nothing
    written, nothing removed. *)
Theorem X7_unknown_free_space_skips (E : Env) (out : option string)
    (total : Z) (start : Q) (c : Z * Z) (p : string) (s : OS)
    (data : list byte) :
  disk_free E (files s) (dirname p) = None →
  files s !! p = Some data →
  data ≠ [] →
  fst (get_free_space E (dirname p) s) = Ok 0
  ∧ ∃ s', process_item E out total start c p s
          = (Ok (fst c + 1, snd c + 1), s')
          ∧ files s' = files s ∧ trace s' = trace s.
Proof.
  intros Hfree Hdata Hne. split.
  { destruct (get_free_space_spec E (dirname p) s) as (s1 & -> & _).
    unfold free_space_value. by rewrite Hfree. }
  unfold process_item. rewrite bind_print. step_valid.
  destruct (valid_image E (files s) p) eqn:Hvalid; cbn [negb].
  - step_free. destruct Hsame as [Hf Ht]. cbn [files trace] in *.
    erewrite bind_ok by (apply getsize_ok; rewrite Hf; exact Hdata).
    unfold free_space_value. rewrite Hfree. cbn [default].
    destruct (_ <? _) eqn:Hlt.
    + rewrite bind_print. eexists. split; [reflexivity|]. by cbn.
    + apply Z.ltb_ge in Hlt. destruct data; [done|]. cbn [length] in Hlt. lia.
  - rewrite bind_print. eexists. split; [reflexivity|]. by cbn.
Qed.

(** The loop of the non-recursive branch of [find_image_files] is a filter
    over the directory listing. *)
Lemma listing_loop (directory : string) (names : list string) :
  ∀ (acc : list string) (s : OS),
    for_each
      (λ image_files file,
         let file_path := join2 directory file in
         is_file <- isfile file_path ;;
         if is_file && supported_suffix file_path
         then ret (image_files ++ [file_path])%list
         else ret image_files)
      names acc s
    = (Ok (acc ++ filter (λ file_path,
                            bool_decide (is_Some (files s !! file_path))
                            && supported_suffix file_path = true)
                         (map (join2 directory) names))%list, s).
Proof.
  induction names as [|file names IH]; intros acc s.
  - cbn. by rewrite app_nil_r.
  - cbn [for_each map]. unfold bind at 1. cbv zeta. unfold bind at 1, isfile.
    destruct (_ && _) eqn:Hb; unfold ret at 1; rewrite IH.
    + rewrite filter_cons_True by done. by rewrite <- app_assoc.
    + rewrite filter_cons_False by (by rewrite Hb). done.
Qed.

(** X8. [find_image_files] returns exactly the candidates with a supported
    extension, in the order of the traversal: with recursion, the files that
    [os.walk] reports, joined to their directory; without, the entries of the
    directory that are regular files. It leaves the state as it was, and it
    raises only without recursion, when the directory cannot be listed. *)
Theorem X8_find_image_files (E : Env) (directory : string) (recursive : bool)
    (s : OS) :
  snd (find_image_files E directory recursive s) = s
  ∧ match fst (find_image_files E directory recursive s) with
    | Ok image_files =>
        ∀ p, p ∈ image_files ↔
          supported_suffix p = true
          ∧ if recursive
            then ∃ root names file, (root, names) ∈ os_walk E directory
                                    ∧ file ∈ names ∧ p = join2 root file
            else ∃ names file, os_listdir E directory = Ok names
                               ∧ file ∈ names ∧ p = join2 directory file
                               ∧ is_Some (files s !! p)
    | Raise e => recursive = false ∧ os_listdir E directory = Raise e
    end.
Proof.
  unfold find_image_files. destruct recursive.
  - split; [done|]. cbn [fst ret]. intros p. rewrite list_elem_of_In, in_flat_map.
    split.
    + intros ([root names] & Hin & Hp%list_elem_of_In).
      apply list_elem_of_filter in Hp as [Hs Hp].
      apply list_elem_of_fmap in Hp as (file & -> & Hfile).
      split; [done|]. exists root, names, file.
      by rewrite list_elem_of_In.
    + intros (Hs & root & names & file & Hin%list_elem_of_In & Hfile & ->).
      exists (root, names). split; [done|]. apply list_elem_of_In.
      apply list_elem_of_filter. split; [done|].
      apply list_elem_of_fmap. by exists file.
  - destruct (os_listdir E directory) as [names|e] eqn:Hl; cycle 1.
    { erewrite bind_raise by (unfold listdir; rewrite Hl; reflexivity). done. }
    erewrite bind_ok by (unfold listdir; rewrite Hl; reflexivity).
    rewrite listing_loop. cbn [fst snd app]. split; [done|]. intros p.
    rewrite list_elem_of_filter, list_elem_of_fmap. split.
    + intros ([Hf Hs]%andb_prop & file & -> & Hfile).
      split; [done|]. exists names, file.
      split_and!; [done..|]. by apply bool_decide_eq_true in Hf.
    + intros (Hs & names' & file & [= <-] & Hfile & -> & Hf).
      split; [|by exists file].
      apply andb_true_intro. split; [by apply bool_decide_eq_true|done].
Qed.

Lemma find_image_files_state (E : Env) (directory : string)
    (recursive : bool) (s : OS) :
  snd (find_image_files E directory recursive s) = s.
Proof.
  unfold find_image_files. destruct recursive; [done|].
  destruct (os_listdir E directory) as [names|e] eqn:Hl.
  - erewrite bind_ok by (unfold listdir; rewrite Hl; reflexivity).
    by rewrite listing_loop.
  - by erewrite bind_raise by (unfold listdir; rewrite Hl; reflexivity).
Qed.

Lemma find_image_files_raise (E : Env) (directory : string)
    (recursive : bool) (s : OS) (e : exn) :
  fst (find_image_files E directory recursive s) = Raise e →
  recursive = false ∧ os_listdir E directory = Raise e.
Proof.
  unfold find_image_files. destruct recursive; [done|].
  destruct (os_listdir E directory) as [names|e'] eqn:Hl.
  - erewrite bind_ok by (unfold listdir; rewrite Hl; reflexivity).
    by rewrite listing_loop.
  - erewrite bind_raise by (unfold listdir; rewrite Hl; reflexivity).
    by intros [= ->].
Qed.

Lemma process_images_returns (E : Env) (image_files : list string)
    (output_dir : option string) (s : OS) :
  ∃ counts s', process_images E image_files output_dir s = (Ok counts, s').
Proof.
  unfold process_images. erewrite (bind_ok (time_time E)) by reflexivity.
  match goal with
  | |- context [bind (for_each ?b ?l ?c) _ ?s0] =>
      destruct (for_each_frame E output_dir (Z.of_nat (length image_files))
                  (clock E (ticks s)) image_files c s0)
        as (c' & s' & t & Hrun & _)
  end.
  erewrite bind_ok by exact Hrun. by eauto.
Qed.

(** X10. [main] touches no file unless it reaches the processing of a
    non-empty list of images: when the directory is missing, when the output
    directory cannot be created, and when no image is found, the store and
    the system-call trace are as before; the exit code is 1 in the first two
    cases and 0 in the third. *)
Theorem X10_early_exits_touch_nothing (E : Env) (a : args) (s : OS)
    (code : Z) (o : run_outcome) (s' : OS) :
  main_traced E a s = (Ok (code, o), s') →
  (∀ success failed, o ≠ Processed success failed) →
  files s' = files s ∧ trace s' = trace s
  ∧ main E a s = (Ok code, s')
  ∧ code = match o with NoImages => 0 | _ => 1 end
  ∧ (o = DirMissing ↔ isdir E (directory a) = false)
  ∧ (o = OutputDirFailed ↔
       isdir E (directory a) = true ∧ output_dir_ready E a = false).
Proof.
  intros Hrun Hnot. rewrite main_traced_code, Hrun.
  unfold forget_outcome. cbn [fst snd].
  revert Hrun. unfold main_traced, output_dir_ready.
  destruct (isdir E (directory a)) eqn:Hdir; cbn [negb]; cycle 1.
  { rewrite bind_print. unfold ret. intros [= <- <- <-]. cbn.
    split_and!; try done; naive_solver. }
  match goal with
  | |- context [bind ?m _ s] =>
      assert (Hc : ∃ created s1, m s = (Ok created, s1) ∧ same s s1
                ∧ created = negb (truthy (output_dir a)
                                  && negb (path_exists E (default "" (output_dir a))))
                            || match makedirs_fault E (default "" (output_dir a)) with
                               | None => true
                               | Some _ => false
                               end)
  end.
  { destruct (_ && _); [|by exists true, s].
    rewrite create_output_dir_step. destruct (makedirs_fault E _);
      do 2 eexists; (split; [done|]); by split. }
  destruct Hc as (created & s1 & Hc & [Hf1 Ht1] & Hcreated).
  erewrite bind_ok by exact Hc. rewrite <- Hcreated.
  destruct created; cbn [negb]; cycle 1.
  { unfold ret. intros [= <- <- <-]. split_and!; try done; naive_solver. }
  rewrite bind_print.
  match goal with
  | |- context [bind (find_image_files ?E ?d ?r) _ ?s0] =>
      pose proof (find_image_files_state E d r s0) as Hst;
      destruct (find_image_files E d r s0) as [[l|e] s2] eqn:Hfind
  end; cbn [snd] in Hst; subst s2;
    [erewrite bind_ok by exact Hfind|by erewrite bind_raise by exact Hfind].
  destruct (is_nil l).
  { rewrite bind_print. unfold ret. intros [= <- <- <-]. cbn.
    split_and!; try done; naive_solver. }
  rewrite bind_print.
  match goal with
  | |- context [bind (process_images ?E ?l ?o) _ ?s0] =>
      destruct (process_images_returns E l o s0) as (counts & s3 & Hp)
  end.
  erewrite bind_ok by exact Hp. rewrite !bind_print.
  destruct (0 <? snd counts); [rewrite bind_print|];
    unfold ret; intros [= <- <- <-]; by edestruct Hnot.
Qed.

(** X18. [save_base64_to_file] returns [True] exactly when the directory
    of the output path is not empty and nothing fails while the directories
    are made and the file is written; the file then holds the whole text,
    which reads back as the same string. In every other case the file is as
    before or holds a beginning of the text. In both cases one write was
    attempted, and nothing was removed. *)
Theorem X18_save_reports_complete_writes (E : Env) (text o : string)
    (s : OS) :
  let r := save_base64_to_file E text o s in
  (fst r = Ok true ↔
     is_empty (dirname o) = false ∧ write_fault E (files s) o = None)
  ∧ (fst r = Ok true →
       files (snd r) = <[o := encode_utf8 text]> (files s)
       ∧ decode_ascii (encode_utf8 text) = text
       ∧ trace (snd r) = (trace s ++ [SysWrite o true])%list)
  ∧ (fst r ≠ Ok true →
       (files (snd r) = files s
        ∨ ∃ n, files (snd r) = <[o := firstn n (encode_utf8 text)]> (files s))
       ∧ trace (snd r) = (trace s ++ [SysWrite o false])%list).
Proof.
  cbv zeta. unfold save_base64_to_file, try_except, bind, write_text, ret.
  destruct (is_empty (dirname o)) eqn:Hd.
  { cbn. split_and!; [split; [done|intros [? ?]; congruence]|done|by auto]. }
  destruct (write_fault E (files s) o) as [[e [n|]]|] eqn:Hw.
  - destruct e as [| |errno| |]; [| |destruct (errno =? 28)| |]; cbn;
      (split_and!; [split; [done|intros [? ?]; congruence]|done|by eauto]).
  - destruct e as [| |errno| |]; [| |destruct (errno =? 28)| |]; cbn;
      (split_and!; [split; [done|intros [? ?]; congruence]|done|by auto]).
  - cbn. split_and!; [done| |done].
    intros _. split_and!; [done|apply decode_ascii_encode_utf8|done].
Qed.

(** X19. [remove_file] returns [True] exactly when the file is there and
    [os.remove] does not fail, and the file is then gone; in every other case
    the store is as before. In both cases one removal was attempted, and
    nothing was written. *)
Theorem X19_remove_reports_removals (E : Env) (p : string) (s : OS) :
  let r := remove_file E p s in
  (fst r = Ok true ↔
     remove_fault E (files s) p = None ∧ is_Some (files s !! p))
  ∧ (fst r = Ok true →
       files (snd r) = delete p (files s)
       ∧ trace (snd r) = (trace s ++ [SysRemove p true])%list)
  ∧ (fst r ≠ Ok true →
       files (snd r) = files s
       ∧ trace (snd r) = (trace s ++ [SysRemove p false])%list).
Proof.
  cbv zeta. unfold remove_file, try_except, bind, os_remove, ret.
  destruct (remove_fault E (files s) p) as [e|] eqn:Hr.
  - destruct e; cbn;
      (split_and!; [split; [done|intros [? ?]; congruence]|done|done]).
  - destruct (files s !! p) eqn:Hp; cbn.
    + split_and!; [by eauto|done|done].
    + split_and!; [|done|done]. split; [done|].
      intros [_ [? ?]]. congruence.
Qed.

Lemma find_image_files_files (E : Env) (directory : string)
    (recursive : bool) (s s0 : OS) :
  files s0 = files s →
  fst (find_image_files E directory recursive s0)
  = fst (find_image_files E directory recursive s).
Proof.
  intros Hf. unfold find_image_files. destruct recursive; [done|].
  destruct (os_listdir E directory) as [names|e] eqn:Hl.
  - erewrite !bind_ok by (unfold listdir; rewrite Hl; reflexivity).
    rewrite !listing_loop. cbn [fst]. by rewrite Hf.
  - by erewrite !bind_raise by (unfold listdir; rewrite Hl; reflexivity).
Qed.

Lemma process_images_removed (E : Env) (image_files : list string)
    (output_dir : option string) (s : OS) (q : string) :
  q ∈ dom (files s) →
  q ∉ dom (files (snd (process_images E image_files output_dir s))) →
  q ∈ image_files ∧ supported_suffix q = true.
Proof.
  unfold process_images. erewrite (bind_ok (time_time E)) by reflexivity.
  match goal with
  | |- context [bind (for_each ?b ?l ?c) _ ?s0] =>
      destruct (for_each_frame E output_dir (Z.of_nat (length image_files))
                  (clock E (ticks s)) image_files c s0)
        as (c' & s' & t & Hrun & _ & _ & _ & Hgone & _)
  end.
  erewrite bind_ok by exact Hrun. cbn [snd files] in *. apply Hgone.
Qed.

(** X20. The only files that a whole run of variant A removes are files
    that [find_image_files] found for the directory, and they have a
    supported extension. *)
Theorem X20_main_removes_only_found_images (E : Env) (a : args) (s : OS)
    (q : string) :
  q ∈ dom (files s) →
  q ∉ dom (files (snd (main E a s))) →
  supported_suffix q = true
  ∧ ∃ image_files,
      fst (find_image_files E (directory a) (negb (no_recursive a)) s)
      = Ok image_files
      ∧ q ∈ image_files.
Proof.
  intros Hq. unfold main.
  destruct (isdir E (directory a)); cbn [negb]; [|done].
  match goal with
  | |- context [bind ?m _ s] =>
      assert (Hc : ∃ created s1, m s = (Ok created, s1) ∧ files s1 = files s)
  end.
  { destruct (_ && _); [|by eauto].
    rewrite create_output_dir_step. destruct (makedirs_fault E _); by eauto. }
  destruct Hc as (created & s1 & Hc & Hf1). erewrite bind_ok by exact Hc.
  destruct created; cbn [negb]; [|unfold ret; cbn [snd]; by rewrite Hf1].
  rewrite bind_print.
  match goal with
  | |- context [bind (find_image_files ?E ?d ?r) _ ?s0] =>
      pose proof (find_image_files_state E d r s0) as Hst;
      pose proof (find_image_files_files E d r s s0 Hf1) as Hsame;
      destruct (find_image_files E d r s0) as [[l|e] s2] eqn:Hfind
  end; cbn [snd fst] in Hst, Hsame; subst s2;
    [erewrite bind_ok by exact Hfind
    |erewrite bind_raise by exact Hfind; cbn [snd files]; by rewrite Hf1].
  destruct (is_nil l); [rewrite bind_print; unfold ret; cbn [snd files]; by rewrite Hf1|].
  rewrite bind_print.
  match goal with
  | |- context [bind (process_images ?E ?l ?o) _ ?s0] =>
      pose proof (process_images_removed E l o s0 q) as Hrm;
      destruct (process_images E l o s0) as [[counts|e] s3] eqn:Hp
  end; cbn [snd files] in Hrm;
    [erewrite bind_ok by exact Hp|erewrite bind_raise by exact Hp].
  - rewrite !bind_print.
    destruct (0 <? snd counts); [rewrite bind_print|]; cbn [snd ret files];
      (intros Hnq; destruct Hrm as [Hin Hs]; [by rewrite Hf1|done|];
       split; [done|]; by exists l).
  - cbn [snd]. intros Hnq. destruct Hrm as [Hin Hs]; [by rewrite Hf1|done|].
    split; [done|]. by exists l.
Qed.

End ConverterMore.

(** * Variant B: what a run returns, writes and stores *)

Module AggregatorMore.
Import Aggregator ConverterSpec AggregatorSpec MoreSpec PathFacts.
Import ConverterFacts AggregatorFacts.

Lemma is_empty_app_r (a b : string) :
  is_empty b = false → is_empty (a ++ b) = false.
Proof. intros Hb. destruct a; [done|]. by rewrite append_cons. Qed.

Lemma join2_nonempty (a b : string) :
  is_empty b = false → is_empty (join2 a b) = false.
Proof.
  intros Hb. unfold join2. destruct (startswith b "/"); [done|].
  destruct (_ || _); [by apply is_empty_app_r|].
  apply is_empty_app_r. by apply is_empty_app_r.
Qed.

Lemma relpath_is_Some (cwd path start : string) :
  is_empty path = false → is_Some (relpath cwd path start).
Proof.
  intros Hp. unfold relpath. rewrite Hp. destruct (_ ++ _)%list; by eauto.
Qed.

Lemma image_file_nonempty (file : string) :
  is_image_file file = true → is_empty file = false.
Proof. by destruct file. Qed.

Lemma discovered_image_file E directory rf :
  rf ∈ discovered E directory → is_image_file (snd rf) = true.
Proof.
  unfold discovered. rewrite list_elem_of_In, in_flat_map.
  intros ([root names] & _ & Hin%list_elem_of_In).
  apply list_elem_of_fmap in Hin as (file & -> & Hfile).
  by apply list_elem_of_filter in Hfile as [? _].
Qed.

Lemma relative_key_is_Some E directory rf :
  is_image_file (snd rf) = true → is_Some (relative_key E directory rf).
Proof.
  intros Hrf%image_file_nonempty. unfold relative_key.
  destruct (relpath_is_Some (cwd E) (join2 (fst rf) (snd rf)) directory)
    as [rel ->]; [by apply join2_nonempty|]. by eauto.
Qed.

(** The loop of [scan_directory] over image files: it returns, leaves the
    store and the trace alone, and every value in the dictionary is either
    an old one or the text of one of the files, stored under that file's
    key. *)
Lemma scan_loop_values (E : Env) (directory : string) (total : Z)
    (l : list (string * string)) :
  Forall (λ rf, is_image_file (snd rf) = true) l →
  ∀ acc s,
    ∃ d n s',
      for_each (scan_file E directory total) l acc s = (Ok (d, n), s')
      ∧ same s s'
      ∧ ∀ k text, d !! k = Some text →
          fst acc !! k = Some text
          ∨ ∃ rf, rf ∈ l ∧ relative_key E directory rf = Some k
                  ∧ stored_text E (files s) (join2 (fst rf) (snd rf))
                    = Some text.
Proof.
  induction 1 as [|rf l Hrf Hl IH]; intros acc s.
  - destruct acc as [d n]. exists d, n, s. split_and!; [done..|]. by left.
  - cbn [for_each].
    destruct (relative_key_is_Some E directory rf Hrf) as [key Hkey].
    destruct (scan_file_spec E directory total acc rf key s Hkey)
      as (s1 & Hstep & Hsame1).
    erewrite bind_ok by exact Hstep.
    match goal with
    | |- context [for_each _ l ?acc1 s1] =>
        destruct (IH acc1 s1) as (d & n & s' & Hrun & Hsame & Hval)
    end.
    destruct Hsame1 as [Hf1 Ht1]. destruct Hsame as [Hf Ht].
    exists d, n, s'. split_and!; [done|split; congruence|].
    intros k text Hk. rewrite Hf1 in Hval.
    destruct (Hval k text Hk) as [Hold|(rf' & Hin & Hk' & Hst)].
    + cbn [fst] in Hold.
      destruct (stored_text E (files s) (join2 rf.1 rf.2)) as [t|] eqn:Hst;
        [|by left].
      destruct (decide (key = k)) as [->|Hne].
      * rewrite lookup_insert_eq in Hold. simplify_eq.
        right. exists rf. split_and!; [by left|done..].
      * rewrite lookup_insert_ne in Hold by done. by left.
    + right. exists rf'. split_and!; [by right|done..].
Qed.

Lemma discovered_Forall E directory :
  Forall (λ rf, is_image_file (snd rf) = true) (discovered E directory).
Proof. apply Forall_forall. intros rf. apply discovered_image_file. Qed.

Lemma scan_directory_returns (E : Env) (directory : string) (s : OS) :
  ∃ d s', scan_directory E directory s = (Ok d, s') ∧ same s s'
    ∧ ∀ k text, d !! k = Some text →
        ∃ rf, rf ∈ discovered E directory
              ∧ relative_key E directory rf = Some k
              ∧ stored_text E (files s) (join2 (fst rf) (snd rf)) = Some text.
Proof.
  unfold scan_directory, scan_directory_counted. rewrite bind_assoc.
  match goal with
  | |- context [bind (for_each (scan_file E directory ?total) ?l ?acc) _ s] =>
      destruct (scan_loop_values E directory total l
                  (discovered_Forall E directory) acc s)
        as (d & n & s1 & Hrun & [Hf Ht] & Hval)
  end.
  erewrite bind_ok by exact Hrun. rewrite bind_assoc, bind_print.
  unfold bind, ret. cbn [fst]. do 2 eexists. split; [reflexivity|].
  split; [by split|]. intros k text Hk.
  destruct (Hval k text Hk) as [Hold|?]; [|done].
  cbn [fst] in Hold. by rewrite lookup_empty in Hold.
Qed.

(** X11. Whenever [scan_directory] returns a dictionary, it has changed
    no file, and every value of the dictionary is the Base64 text of a
    discovered image file stored under that file's relative path: decoding it
    gives the bytes of that file. *)
Theorem X11_values_decode_to_file_contents (E : Env) (directory : string)
    (s s' : OS) (d : gmap string string) :
  scan_directory E directory s = (Ok d, s') →
  files s' = files s ∧ trace s' = trace s
  ∧ ∀ k text, d !! k = Some text →
      ∃ rf data, rf ∈ discovered E directory
                 ∧ relative_key E directory rf = Some k
                 ∧ read_file E (files s) (join2 (fst rf) (snd rf)) = Ok data
                 ∧ Base64.b64decode text = Some data.
Proof.
  intros Hrun.
  destruct (scan_directory_returns E directory s)
    as (d' & s1 & Hscan & [Hf Ht] & Hval).
  rewrite Hscan in Hrun. simplify_eq.
  split_and!; [done..|]. intros k text Hk.
  destruct (Hval k text Hk) as (rf & Hin & Hkey & Hst).
  unfold stored_text in Hst.
  destruct (read_file E (files s) _) as [[|b data]|e] eqn:Hread; [done| |done].
  injection Hst as <-. exists rf, (b :: data).
  split_and!; [done..|]. apply Base64Facts.b64decode_b64encode.
Qed.

Lemma generate_dart_file_spec (E : Env) (d : gmap string string)
    (out : string) (s : OS) :
  ∃ s' ok, generate_dart_file E d out s = (Ok tt, s')
    ∧ trace s' = (trace s ++ [SysWrite out ok])%list
    ∧ (∀ q, q ≠ out → files s' !! q = files s !! q)
    ∧ (ok = true ↔ is_empty (dirname out) = false
                   ∧ write_fault E (files s) out = None)
    ∧ (ok = true → files s' !! out = Some (encode_utf8 (dart_text d))
                   ∧ In (MsgDartWritten out) (console s')).
Proof.
  unfold generate_dart_file, try_except, bind, write_text, print.
  destruct (is_empty (dirname out)) eqn:Hd.
  { eexists _, false. split; [reflexivity|]. cbn. split_and!; try done.
    split; [done|intros [? ?]; congruence]. }
  destruct (write_fault E (files s) out) as [[e [n|]]|] eqn:Hw.
  - eexists _, false. split; [reflexivity|]. cbn.
    split_and!; try done; try (intros q Hq; by rewrite lookup_insert_ne).
    split; [done|intros [? ?]; congruence].
  - eexists _, false. split; [reflexivity|]. cbn. split_and!; try done.
    split; [done|intros [? ?]; congruence].
  - eexists _, true. split; [reflexivity|]. cbn.
    split_and!; try done; try (intros q Hq; by rewrite lookup_insert_ne).
    intros _. split; [apply lookup_insert_eq|].
    apply in_app_iff. right. by left.
Qed.

(** X13. Variant B's [main] never removes a file: in the state it ends
    in, it has made at most one system call that changes a file, a write to
    the absolute path of its output argument, and every other path is as it
    was. *)
Theorem X13_main_only_writes_output (E : Env) (a : args) (s : OS) :
  let s' := snd (main E a s) in
  ∃ t,
    trace s' = (trace s ++ t)%list
    ∧ (t = [] ∨ ∃ ok, t = [SysWrite (abspath (cwd E) (output a)) ok])
    ∧ ∀ q, q ≠ abspath (cwd E) (output a) → files s' !! q = files s !! q.
Proof.
  cbv zeta. unfold main. destruct (isdir E (directory a)); cbn [negb]; cycle 1.
  { exists []. cbn. rewrite app_nil_r. split_and!; by auto. }
  rewrite bind_print.
  match goal with
  | |- context [bind (scan_directory E ?dir) _ ?s0] =>
      destruct (scan_directory_returns E dir s0)
        as (d & s1 & Hscan & [Hf Ht] & _)
  end.
  erewrite bind_ok by exact Hscan. cbn [files trace] in *.
  destruct (bool_decide (d = ∅)).
  { exists []. cbn. rewrite app_nil_r.
    split_and!; [done|by left|intros q _; by rewrite Hf]. }
  destruct (generate_dart_file_spec E d (abspath (cwd E) (output a)) s1)
    as (s' & ok & Hgen & Ht' & Hframe & _).
  rewrite Hgen. cbn [snd].
  exists [SysWrite (abspath (cwd E) (output a)) ok].
  split_and!; [by rewrite Ht', Ht|by eauto|].
  intros q Hq. by rewrite Hframe, Hf.
Qed.

Lemma scan_directory_dom (E : Env) (directory : string) (s s' : OS)
    (d : gmap string string) :
  scan_directory E directory s = (Ok d, s') →
  ∀ k, k ∈ dom d ↔
    ∃ rf, rf ∈ discovered E directory
          ∧ relative_key E directory rf = Some k
          ∧ is_Some (stored_text E (files s) (join2 (fst rf) (snd rf))).
Proof.
  intros Hscan. unfold scan_directory, scan_directory_counted in Hscan.
  rewrite bind_assoc in Hscan.
  match type of Hscan with
  | bind ?m _ s = _ => destruct (m s) as [[[d1 n1]|e] s1] eqn:Hloop
  end; [|by rewrite (bind_raise _ _ _ _ _ Hloop) in Hscan].
  erewrite bind_ok in Hscan by exact Hloop.
  rewrite bind_assoc, bind_print in Hscan.
  unfold bind, ret in Hscan. cbn [fst] in Hscan. simplify_eq.
  apply scan_loop in Hloop as (_ & _ & Hdom). cbn [fst] in Hdom.
  intros k. rewrite Hdom, dom_empty_L. split; [|by auto].
  intros [Hk|?]; [|done]. by apply elem_of_empty in Hk.
Qed.

Lemma snoc_neq {A} (l : list A) (x : A) : (l ++ [x])%list ≠ l.
Proof.
  intros H. apply (f_equal length) in H. rewrite length_app in H.
  cbn in H. lia.
Qed.

(** X14. Variant B attempts to write its output file exactly when the
    directory exists and at least one discovered image could be read and is
    not empty; otherwise it makes no system call that changes a file. *)
Theorem X14_writes_iff_some_image_has_content (E : Env) (a : args)
    (s : OS) :
  trace (snd (main E a s)) ≠ trace s ↔
    isdir E (directory a) = true
    ∧ ∃ rf, rf ∈ discovered E (directory a)
            ∧ is_Some (stored_text E (files s) (join2 (fst rf) (snd rf))).
Proof.
  unfold main. destruct (isdir E (directory a)); cbn [negb]; cycle 1.
  { cbn. naive_solver. }
  rewrite bind_print.
  match goal with
  | |- context [bind (scan_directory E ?dir) _ ?s0] =>
      destruct (scan_directory_returns E dir s0)
        as (d & s1 & Hscan & [Hf Ht] & _)
  end.
  erewrite bind_ok by exact Hscan.
  pose proof (scan_directory_dom _ _ _ _ _ Hscan) as Hdom.
  cbn [files trace] in *.
  destruct (bool_decide (d = ∅)) eqn:Hd.
  - apply bool_decide_eq_true in Hd. subst d. cbn [snd print trace].
    rewrite Ht. split; [done|]. intros (_ & rf & Hin & Hst).
    destruct (relative_key_is_Some E (directory a) rf) as [k Hk];
      [by apply discovered_image_file in Hin|].
    assert (Hin' : k ∈ dom (∅ : gmap string string))
      by (apply Hdom; by exists rf).
    by rewrite dom_empty_L in Hin'.
  - apply bool_decide_eq_false in Hd.
    destruct (generate_dart_file_spec E d (abspath (cwd E) (output a)) s1)
      as (s' & ok & Hgen & Ht' & _).
    rewrite Hgen. cbn [snd]. rewrite Ht', Ht. split.
    + intros _. split; [done|].
      apply map_choose in Hd as (k & v & Hkv).
      assert (Hk : k ∈ dom d) by (apply elem_of_dom; by eauto).
      apply Hdom in Hk as (rf & Hin & _ & Hst). by exists rf.
    + intros _. apply snoc_neq.
Qed.

Lemma scan_loop_fold (E : Env) (directory : string) (total : Z)
    (l : list (string * string)) :
  Forall (λ rf, is_image_file (snd rf) = true) l →
  ∀ acc s,
    ∃ n s',
      for_each (scan_file E directory total) l acc s
      = (Ok (fold_left
               (λ d rf,
                  match relative_key E directory rf,
                        stored_text E (files s) (join2 (fst rf) (snd rf)) with
                  | Some key, Some text => <[key := text]> d
                  | _, _ => d
                  end) l (fst acc), n), s').
Proof.
  induction 1 as [|rf l Hrf Hl IH]; intros acc s.
  - destruct acc as [d n]. by exists n, s.
  - cbn [for_each fold_left].
    destruct (relative_key_is_Some E directory rf Hrf) as [key Hkey].
    destruct (scan_file_spec E directory total acc rf key s Hkey)
      as (s1 & Hstep & [Hf1 Ht1]).
    erewrite bind_ok by exact Hstep. rewrite Hkey.
    match goal with
    | |- context [for_each _ l ?acc1 s1] =>
        destruct (IH acc1 s1) as (n & s' & Hrun)
    end.
    exists n, s'. rewrite Hrun, Hf1. cbn [fst].
    by destruct (stored_text E (files s) (join2 rf.1 rf.2)).
Qed.

Lemma scan_directory_fold (E : Env) (directory : string) (s : OS) :
  ∃ s', scan_directory E directory s
        = (Ok (scan_dict E directory (files s)), s').
Proof.
  unfold scan_directory, scan_directory_counted. rewrite bind_assoc.
  match goal with
  | |- context [bind (for_each (scan_file E directory ?total) ?l ?acc) _ s] =>
      destruct (scan_loop_fold E directory total l
                  (discovered_Forall E directory) acc s)
        as (n & s1 & Hrun)
  end.
  erewrite bind_ok by exact Hrun. rewrite bind_assoc, bind_print.
  unfold bind, ret. cbn [fst]. by eexists.
Qed.

(** X15. The dictionary that [scan_directory] returns depends on the
    files only: it is built by going through the discovered files in order
    and storing each one that has text under its key, a later file taking
    the place of an earlier one with the same key. When it is not empty and
    the write succeeds, [main] leaves in the output file exactly the header,
    one line per entry in the order of [dart_entries], and the closing
    line, and prints the success line. *)
Theorem X15_output_file_is_the_rendered_dictionary (E : Env) (a : args)
    (s : OS) :
  isdir E (directory a) = true →
  scan_dict E (directory a) (files s) ≠ ∅ →
  is_empty (dirname (abspath (cwd E) (output a))) = false →
  write_fault E (files s) (abspath (cwd E) (output a)) = None →
  ∃ s', main E a s = (Ok tt, s')
    ∧ fst (scan_directory E (directory a) s)
      = Ok (scan_dict E (directory a) (files s))
    ∧ files s'
      = <[abspath (cwd E) (output a) :=
            encode_utf8
              (HEADER
               ++ String.concat ""
                    (map entry_line
                       (dart_entries (scan_dict E (directory a) (files s))))
               ++ FOOTER)]> (files s)
    ∧ In (MsgDartWritten (abspath (cwd E) (output a))) (console s').
Proof.
  intros Hdir Hne Hdn Hw. unfold main. rewrite Hdir. cbn [negb].
  rewrite bind_print.
  match goal with
  | |- context [bind (scan_directory E ?dir) _ ?s0] =>
      destruct (scan_directory_fold E dir s0) as (s1 & Hscan);
      destruct (scan_directory_returns E dir s0) as (d' & s2 & Hscan' & [Hf Ht] & _)
  end.
  rewrite Hscan in Hscan'. simplify_eq. cbn [files trace] in *.
  erewrite bind_ok by exact Hscan.
  rewrite bool_decide_eq_false_2 by done.
  destruct (scan_directory_fold E (directory a) s) as (s3 & ->).
  unfold generate_dart_file, try_except, bind, write_text, print.
  rewrite Hdn, Hf, Hw. eexists. split; [reflexivity|]. cbn.
  split_and!; [done|done|]. apply in_app_iff. right. by left.
Qed.

End AggregatorMore.

(** * Variant A: the text of a removed original *)

Module OrderFacts.
Import Converter ConverterSpec MoreSpec ContentSpec PathFacts.
Import ConverterFacts ConverterMore.










End OrderFacts.

(** * Extensions and output names *)

Module PathMore.
Import Converter PathFacts.

Lemma lower_char_eqb_sep (x : ascii) :
  Ascii.eqb (lower_char x) SEP = Ascii.eqb x SEP.
Proof. by destruct x as [[] [] [] [] [] [] [] []]. Qed.

Lemma lower_char_eqb_dot (x : ascii) :
  Ascii.eqb (lower_char x) DOT = Ascii.eqb x DOT.
Proof. by destruct x as [[] [] [] [] [] [] [] []]. Qed.

Lemma split_lower (s : string) :
  split SEP (lower s) = map lower (split SEP s).
Proof.
  induction s as [|x s IH]; [done|].
  cbn [lower split]. rewrite lower_char_eqb_sep, IH.
  destruct (Ascii.eqb x SEP); [done|]. by destruct (split SEP s).
Qed.

Lemma is_dot_or_empty_lower (s : string) :
  is_dot_or_empty (lower s) = is_dot_or_empty s.
Proof.
  destruct s as [|x s]; [done|]. unfold is_dot_or_empty.
  cbn [lower String.eqb orb].
  change (Ascii.eqb (lower_char x) ".") with (Ascii.eqb (lower_char x) DOT).
  rewrite lower_char_eqb_dot. by destruct s.
Qed.

Lemma filter_components_lower (l : list string) :
  filter (λ x, negb (is_dot_or_empty x) = true) (map lower l)
  = map lower (filter (λ x, negb (is_dot_or_empty x) = true) l).
Proof.
  induction l as [|x l IH]; [done|]. cbn [map].
  destruct (negb (is_dot_or_empty x)) eqn:Hx.
  - rewrite !filter_cons_True by (by rewrite ?is_dot_or_empty_lower, Hx).
    cbn [map]. by rewrite IH.
  - rewrite !filter_cons_False by (by rewrite ?is_dot_or_empty_lower, Hx).
    done.
Qed.

Lemma last_map_lower (l : list string) :
  List.last (map lower l) "" = lower (List.last l "").
Proof.
  induction l as [|x l IH]; [done|]. destruct l as [|y l]; [done|].
  exact IH.
Qed.

Lemma path_name_lower (p : string) : path_name (lower p) = lower (path_name p).
Proof.
  unfold path_name. by rewrite split_lower, filter_components_lower,
    last_map_lower.
Qed.

Lemma rfind_aux_lower (s : string) (i acc : Z) :
  rfind_aux DOT (lower s) i acc = rfind_aux DOT s i acc.
Proof.
  revert i acc. induction s as [|x s IH]; intros i acc; [done|].
  cbn [lower rfind_aux]. by rewrite lower_char_eqb_dot, IH.
Qed.

Lemma len_lower (s : string) : len (lower s) = len s.
Proof.
  unfold len. f_equal. induction s as [|x s IH]; [done|]. cbn. by rewrite IH.
Qed.

Lemma drop_lower (n : nat) (s : string) : drop n (lower s) = lower (drop n s).
Proof.
  revert s. induction n as [|n IH]; intros [|x s]; try done. cbn. apply IH.
Qed.

Lemma path_suffix_lower (p : string) :
  path_suffix (lower p) = lower (path_suffix p).
Proof.
  unfold path_suffix. rewrite path_name_lower. unfold rfind.
  rewrite rfind_aux_lower, len_lower.
  destruct (_ && _); [|done]. apply drop_lower.
Qed.

(** X16. The extension test of both scripts does not depend on case: two
    paths that differ in the case of their ASCII letters only are accepted
    or rejected alike. *)
Theorem X16_extension_test_ignores_case (p1 p2 : string) :
  lower p1 = lower p2 →
  supported_suffix p1 = supported_suffix p2
  ∧ Aggregator.is_image_file p1 = Aggregator.is_image_file p2.
Proof.
  intros Hp. unfold supported_suffix, Aggregator.is_image_file.
  by rewrite <- !path_suffix_lower, Hp.
Qed.









End PathMore.

(** * The properties at concrete inputs *)

Module Checks.
Import Examples ConverterSpec AggregatorSpec PathFacts ConverterFacts EncoderFacts
  AggregatorFacts.

Import Converter.

Lemma C1_example :
  trace (snd (main env_ok (mkArgs "d" false None) os_images))
  = [SysWrite "d/a.txt" true; SysRemove "d/a.png" true;
     SysWrite "d/sub/a.txt" true; SysRemove "d/sub/a.png" true].
Proof. by vm_compute. Qed.

Lemma C2_witness :
  ∃ text,
    fst (Converter.convert_to_base64 env_ok "d/b.png" os_images)
      = Ok (Some text)
    ∧ fst (Aggregator.convert_to_base64 env_ok "d/b.png" os_images) = Ok text
    ∧ Base64.b64decode text = Some [x68; x69]
    ∧ Z.of_nat (String.length text)
      = 4 * ((Z.of_nat (length [x68; x69]) + 2) / 3)
    ∧ forallb Base64.is_base64_char (list_ascii_of_string text) = true.
Proof.
  apply (C2_base64_round_trip env_ok "d/b.png" os_images [x68; x69]).
  vm_compute. reflexivity.
Defined.

(** C3. With an output directory, the path under which an image of a
    subdirectory is written keeps the file name only: [d/sub/a.png], found
    while scanning [d], goes to [out/a.txt] and not to [out/sub/a.txt], the
    path that keeps its place relative to [d]; in a run over [d] it takes the
    place of the text of [d/a.png], whose original is removed all the same.
    Without an output directory the text file is next to the image. *)
Theorem C3_output_dir_drops_subdirectories :
  output_path_of env_ok (Some "out") "d/sub/a.png" = Some "out/a.txt"
  ∧ relpath (cwd env_ok) "d/sub/a.png" "d" = Some "sub/a.png"
  ∧ join2 "out" (fst (splitext "sub/a.png") ++ ".txt") = "out/sub/a.txt"
  ∧ output_path_of env_ok None "d/sub/a.png" = Some "d/sub/a.txt"
  ∧ trace (snd (main env_ok (mkArgs "d" false (Some "out")) os_images))
    = [SysWrite "out/a.txt" true; SysRemove "d/a.png" true;
       SysWrite "out/a.txt" true; SysRemove "d/sub/a.png" true]
  ∧ map fst (map_to_list
      (files (snd (main env_ok (mkArgs "d" false (Some "out")) os_images))))
    = ["out/a.txt"; "d/b.png"].
Proof. by vm_compute. Qed.

Lemma scan_empty_file :
  Aggregator.scan_directory env_ok "d" os_empty_file
  = (Ok (scan_result env_ok os_empty_file),
     snd (Aggregator.scan_directory env_ok "d" os_empty_file)).
Proof. by vm_compute. Qed.

Lemma C4_counterexample :
  ¬ keys_are_all_discovered env_ok "d" os_empty_file.
Proof.
  intros H. specialize (H _ _ scan_empty_file "a.png") as [_ H].
  assert (Hin : "a.png" ∈ map fst (Aggregator.dart_entries
                                     (scan_result env_ok os_empty_file))).
  { apply H. exists ("d", "a.png"). split; [|by vm_compute].
    vm_compute. apply list_elem_of_here. }
  vm_compute in Hin.
  apply elem_of_cons in Hin as [Hin|Hin]; [done|].
  apply elem_of_cons in Hin as [Hin|Hin]; [done|].
  by apply elem_of_nil in Hin.
Qed.

Lemma C4_witness :
  let keys := map fst (Aggregator.dart_entries (scan_result env_ok os_images)) in
  Sorted String.le keys ∧ NoDup keys
  ∧ (∀ k, k ∈ keys → rfind Aggregator.BACKSLASH k = -1)
  ∧ ∀ k, k ∈ keys ↔
      ∃ rf data, rf ∈ Aggregator.discovered env_ok "d"
                 ∧ Aggregator.relative_key env_ok "d" rf = Some k
                 ∧ read_file env_ok (files os_images) (join2 (fst rf) (snd rf))
                   = Ok data
                 ∧ data ≠ [].
Proof.
  apply (C4_keys_sorted_and_nonempty_images env_ok "d" os_images
           (snd (Aggregator.scan_directory env_ok "d" os_images))
           (scan_result env_ok os_images)).
  vm_compute. reflexivity.
Defined.

Lemma C4_example :
  Aggregator.dart_entries (scan_result env_ok os_images)
  = [("a.png", "iVBORw0KGgoAAQ=="); ("b.png", "aGk=");
     ("sub/a.png", "iVBORw0KGgr/")].
Proof. by vm_compute. Qed.

Lemma C5_witness :
  ∃ s', process_item env_full None 3 0 (0, 0) "d/a.png" os_images
        = (Ok (fst (0, 0) + 1, snd (0, 0) + 1), s')
        ∧ files s' = files os_images ∧ trace s' = trace os_images.
Proof.
  apply (C5_insufficient_space_skips env_full None 3 0 (0, 0) "d/a.png"
           os_images (png_magic ++ [x00; x01])%list).
  - vm_compute. reflexivity.
  - vm_compute. reflexivity.
Defined.

Lemma C7_witness :
  ∃ s', process_item env_readonly None 3 0 (0, 0) "d/a.png" os_images
        = (Ok (fst (0, 0) + 1, snd (0, 0) + 1), s')
    ∧ In (MsgPartial "d/a.txt") (console s')
    ∧ files s'
      = <["d/a.txt" := encode_utf8
                         (Base64.b64encode (png_magic ++ [x00; x01])%list)]>
          (files os_images)
    ∧ trace s'
      = (trace os_images
         ++ [SysWrite "d/a.txt" true; SysRemove "d/a.png" false])%list
    ∧ ∀ rest, ∃ c' s'',
        for_each (process_item env_readonly None 3 0) rest
          (fst (0, 0) + 1, snd (0, 0) + 1) s' = (Ok c', s'')
        ∧ snd (0, 0) + 1 ≤ snd c'.
Proof.
  apply (C7_partial_success_counts_as_failure env_readonly None 3 0 (0, 0)
           "d/a.png" "d/a.txt" os_images (png_magic ++ [x00; x01])%list
           PermissionError).
  - vm_compute. reflexivity.
  - vm_compute. reflexivity.
  - vm_compute. discriminate.
  - vm_compute. reflexivity.
  - vm_compute. reflexivity.
  - vm_compute. reflexivity.
  - vm_compute. reflexivity.
Defined.

(** C8. A run over one valid image handles it to the end (text written,
    original removed, counted as a success) and prints no progress line, so
    no estimate is shown once the first item has completed; in a run over
    two such images the only progress line is the one after the second. *)
Theorem C8_no_estimate_after_first_item :
  fst (process_images env_ok ["d/a.png"] None os_images) = Ok (1, 0)
  ∧ trace (snd (process_images env_ok ["d/a.png"] None os_images))
    = [SysWrite "d/a.txt" true; SysRemove "d/a.png" true]
  ∧ filter (λ m, is_progress m = true)
      (console (snd (process_images env_ok ["d/a.png"] None os_images))) = []
  ∧ fst (process_images env_ok ["d/a.png"; "d/sub/a.png"] None os_images)
    = Ok (2, 0)
  ∧ length (filter (λ m, is_progress m = true)
      (console (snd (process_images env_ok ["d/a.png"; "d/sub/a.png"] None
                       os_images)))) = 1%nat.
Proof. by vm_compute. Qed.

Lemma C9_run_no_mkdir :
  main_traced env_no_mkdir (mkArgs "d" false (Some "out")) os_images
  = (Ok (1, OutputDirFailed),
     snd (main_traced env_no_mkdir (mkArgs "d" false (Some "out")) os_images)).
Proof. by vm_compute. Qed.

Lemma C9_counterexample :
  ¬ exit_zero_iff_no_failure env_no_mkdir (mkArgs "d" false (Some "out"))
      os_images.
Proof.
  intros H. specialize (H eq_refl _ _ _ C9_run_no_mkdir) as [_ H].
  by specialize (H eq_refl).
Qed.

Lemma C9_example :
  exit_status (fst (main env_no_mkdir (mkArgs "d" false (Some "out")) os_images))
  = 1
  ∧ exit_status (fst (main env_ok (mkArgs "d" false None) os_images)) = 1
  ∧ exit_status (fst (main env_ok (mkArgs "d" true None) os_images)) = 1
  ∧ exit_status (fst (main env_ok (mkArgs "nowhere" false None) os_images)) = 1.
Proof. by vm_compute. Qed.

Lemma C10_witness :
  fst (Aggregator.convert_to_base64 env_ok (join2 "d" "a.png") os_empty_file)
    = Ok ""
  ∧ ∃ s', Aggregator.scan_file env_ok "d" 3 (∅, 0) ("d", "a.png") os_empty_file
          = (Ok (fst (∅ : gmap string string, 0),
                 snd (∅ : gmap string string, 0) + 1), s').
Proof.
  apply (C10_empty_file_dropped_like_failed_read env_ok "d" 3 (∅, 0)
           ("d", "a.png") "a.png" os_empty_file).
  - vm_compute. reflexivity.
  - left. vm_compute. reflexivity.
Defined.

End Checks.

(** * The further properties at concrete inputs *)

Module MoreChecks.
Import Examples Converter ConverterSpec AggregatorSpec MoreSpec.
Import ConverterMore AggregatorMore PathMore.

Lemma X2_witness :
  "d/a.png" ∈ ["d/a.png"; "d/b.png"] ∧ supported_suffix "d/a.png" = true.
Proof.
  apply (X2_removes_only_listed_images env_ok ["d/a.png"; "d/b.png"] None
           os_images "d/a.png").
  - apply elem_of_dom. vm_compute. eexists. reflexivity.
  - apply not_elem_of_dom. vm_compute. reflexivity.
Defined.

Lemma X4_witness :
  supported_suffix "d/a.txt" = false
  ∧ Aggregator.is_image_file "d/a.txt" = false
  ∧ is_valid_image env_ok "d/a.txt" os_images = (Ok false, os_images).
Proof.
  apply (X4_outputs_are_not_images env_ok None "d/a.png" "d/a.txt" os_images).
  vm_compute. reflexivity.
Defined.

Lemma X5_witness :
  process_item env_ok None 3 0 (0, 0) "d/b.png" os_images
  = (Ok (fst (0, 0) + 1, snd (0, 0) + 1),
     mkOS (files os_images)
          (console os_images
           ++ [MsgProcessing "d/b.png" (fst (0, 0) + 1) 3;
               MsgSkipInvalid "d/b.png"])
          (trace os_images) (ticks os_images)).
Proof.
  apply (X5_invalid_image_is_skipped env_ok None 3 0 (0, 0) "d/b.png"
           os_images).
  vm_compute. reflexivity.
Defined.

Lemma X6_witness :
  ∃ s', process_item env_ok None 3 0 (0, 0) "d/a.png" os_images
        = (Ok (fst (0, 0) + 1, snd (0, 0)), s')
    ∧ In (MsgSuccess "d/a.png" "d/a.txt") (console s')
    ∧ trace s'
      = (trace os_images
         ++ [SysWrite "d/a.txt" true; SysRemove "d/a.png" true])%list
    ∧ files s' !! "d/a.png" = None
    ∧ ∃ text, files s' !! "d/a.txt" = Some text
              ∧ Base64.b64decode (decode_ascii text)
                = Some (png_magic ++ [x00; x01])%list.
Proof.
  apply (X6_success_replaces_image_by_text env_ok None 3 0 (0, 0) "d/a.png"
           "d/a.txt" os_images (png_magic ++ [x00; x01])%list).
  - vm_compute. reflexivity.
  - vm_compute. reflexivity.
  - vm_compute. discriminate.
  - vm_compute. reflexivity.
  - vm_compute. reflexivity.
  - vm_compute. reflexivity.
  - vm_compute. reflexivity.
Defined.

Lemma X7_witness :
  fst (get_free_space env_no_usage (dirname "d/a.png") os_images) = Ok 0
  ∧ ∃ s', process_item env_no_usage None 3 0 (0, 0) "d/a.png" os_images
          = (Ok (fst (0, 0) + 1, snd (0, 0) + 1), s')
          ∧ files s' = files os_images ∧ trace s' = trace os_images.
Proof.
  apply (X7_unknown_free_space_skips env_no_usage None 3 0 (0, 0) "d/a.png"
           os_images (png_magic ++ [x00; x01])%list).
  - vm_compute. reflexivity.
  - vm_compute. reflexivity.
  - vm_compute. discriminate.
Defined.

Lemma X10_witness :
  let a := mkArgs "d" false (Some "out") in
  let s' := snd (main_traced env_no_mkdir a os_images) in
  files s' = files os_images ∧ trace s' = trace os_images
  ∧ main env_no_mkdir a os_images = (Ok 1, s')
  ∧ 1 = match OutputDirFailed with NoImages => 0 | _ => 1 end
  ∧ (OutputDirFailed = DirMissing ↔ isdir env_no_mkdir (directory a) = false)
  ∧ (OutputDirFailed = OutputDirFailed ↔
       isdir env_no_mkdir (directory a) = true
       ∧ output_dir_ready env_no_mkdir a = false).
Proof.
  apply (X10_early_exits_touch_nothing env_no_mkdir
           (mkArgs "d" false (Some "out")) os_images 1 OutputDirFailed).
  - vm_compute. reflexivity.
  - intros success failed. discriminate.
Defined.

Lemma X15_witness :
  let a := Aggregator.mkArgs "d" "base64_images.dart" in
  let out := abspath (cwd env_ok) (Aggregator.output a) in
  ∃ s', Aggregator.main env_ok a os_images = (Ok tt, s')
    ∧ fst (Aggregator.scan_directory env_ok (Aggregator.directory a) os_images)
      = Ok (scan_dict env_ok (Aggregator.directory a) (files os_images))
    ∧ files s'
      = <[out :=
            encode_utf8
              (Aggregator.HEADER
               ++ String.concat ""
                    (map Aggregator.entry_line
                       (Aggregator.dart_entries
                          (scan_dict env_ok (Aggregator.directory a)
                             (files os_images))))
               ++ Aggregator.FOOTER)]> (files os_images)
    ∧ In (MsgDartWritten out) (console s').
Proof.
  apply (X15_output_file_is_the_rendered_dictionary env_ok
           (Aggregator.mkArgs "d" "base64_images.dart") os_images).
  - vm_compute. reflexivity.
  - intros H. apply (f_equal (λ m, m !! "b.png")) in H.
    vm_compute in H. discriminate.
  - vm_compute. reflexivity.
  - vm_compute. reflexivity.
Defined.

Lemma X16_witness :
  supported_suffix "d/Photo.JPG" = supported_suffix "d/photo.jpg"
  ∧ Aggregator.is_image_file "d/Photo.JPG"
    = Aggregator.is_image_file "d/photo.jpg".
Proof.
  apply (X16_extension_test_ignores_case "d/Photo.JPG" "d/photo.jpg").
  vm_compute. reflexivity.
Defined.


Lemma X20_witness :
  supported_suffix "d/sub/a.png" = true
  ∧ ∃ image_files,
      fst (find_image_files env_ok "d" (negb false) os_images) = Ok image_files
      ∧ "d/sub/a.png" ∈ image_files.
Proof.
  apply (X20_main_removes_only_found_images env_ok (mkArgs "d" false None)
           os_images "d/sub/a.png").
  - apply elem_of_dom. vm_compute. eexists. reflexivity.
  - apply not_elem_of_dom. vm_compute. reflexivity.
Defined.

End MoreChecks.

(** * The run over two images of the same name, and checks of the counts *)

Module OrderChecks.
Import Examples Converter ConverterSpec AggregatorSpec MoreSpec ContentSpec.
Import ConverterMore AggregatorMore OrderFacts.


(** The run over [d/a.png], [d/b.png] and [d/sub/a.png] counts two removed
    originals and one failure. *)
Lemma X1_witness :
  ∃ t,
    trace (snd (process_images env_ok ["d/a.png"; "d/b.png"; "d/sub/a.png"]
                  None os_images))
    = (trace os_images ++ t)%list
    ∧ 2 + 1 = Z.of_nat (length ["d/a.png"; "d/b.png"; "d/sub/a.png"])
    ∧ 2 = removed_count t
    ∧ 0 ≤ 2 ∧ 0 ≤ 1.
Proof.
  apply (X1_counts_add_up env_ok ["d/a.png"; "d/b.png"; "d/sub/a.png"] None
           os_images).
  vm_compute. reflexivity.
Defined.

(** The scan of [d] returns a dictionary whose values decode to the files. *)
Lemma X11_witness :
  let s' := snd (Aggregator.scan_directory env_ok "d" os_images) in
  files s' = files os_images ∧ trace s' = trace os_images
  ∧ ∀ k text, scan_result env_ok os_images !! k = Some text →
      ∃ rf data, rf ∈ Aggregator.discovered env_ok "d"
                 ∧ Aggregator.relative_key env_ok "d" rf = Some k
                 ∧ read_file env_ok (files os_images) (join2 (fst rf) (snd rf))
                   = Ok data
                 ∧ Base64.b64decode text = Some data.
Proof.
  apply (X11_values_decode_to_file_contents env_ok "d" os_images).
  vm_compute. reflexivity.
Defined.

End OrderChecks.
